(** * Linear models: least-squares fits with confidence and prediction intervals

    A shallow embedding of the numerical cells of [Linear_Models.ipynb]
    (ordinary and weighted least squares, interval half-widths at a query
    point) and the properties its specification states about them.

    Numbers.  The notebook computes in IEEE double precision.  Here the finite
    values are the elements of an arbitrary real closed field [R] (exact
    arithmetic with square roots), and the values a float64 computation yields
    without being a real number (NaN, +inf, -inf) are one extra value,
    [NonFinite].  Rounding is not modelled.

    Arrays.  A two-dimensional numpy array of shape (n, p) is a matrix
    ['M[R]_(n, p)]; a column vector is ['cV[R]_n], a row vector ['rV[R]_n].
    The Python variables [n] and [p] of the notebook are the two dimensions of
    [x_design]. *)

Set Warnings "-notation-overridden,-ambiguous-paths,-rewrite-rw".

From HB Require Import structures.
From mathcomp Require Import ssreflect ssrfun ssrbool eqtype ssrnat seq choice.
From mathcomp Require Import fintype bigop order ssralg ssrnum ssrint.
From mathcomp Require Import matrix mxalgebra ring_tactic arithmetic_tactic.
From mathcomp Require Import field_tactic algC.

Set Implicit Arguments.
Unset Strict Implicit.
Unset Printing Implicit Defensive.

Import Order.TTheory GRing.Theory Num.Theory.
Local Open Scope ring_scope.

(** ** Python exceptions

    The only statement of the interval cells that can raise is
    [np.linalg.inv], which raises [LinAlgError] on a singular matrix. *)

Inductive exc (T : Type) : Type :=
  | Ok of T
  | LinAlgError.

Arguments Ok {T} _.
Arguments LinAlgError {T}.

Definition bind_exc (T U : Type) (c : exc T) (k : T -> exc U) : exc U :=
  match c with
  | Ok v => k v
  | LinAlgError => LinAlgError
  end.

Notation "'let!' x ':=' c 'in' k" := (bind_exc c (fun x => k))
  (at level 10, x name, c at level 100, k at level 200).


(** ** numpy and scipy primitives *)

Section Numpy.

Variable R : rcfType.

(** A float64 value: a real number, or NaN / infinity. *)
Inductive np_float : Type :=
  | Finite of R
  | NonFinite.

Definition is_finite (x : np_float) : bool :=
  if x is Finite _ then true else false.

(** A computation that ends without exception on a real number. *)
Definition well_defined (c : exc np_float) : bool :=
  if c is Ok x then is_finite x else false.

Definition np_add (x y : np_float) : np_float :=
  match x, y with
  | Finite a, Finite b => Finite (a + b)
  | _, _ => NonFinite
  end.

Definition np_mul (x y : np_float) : np_float :=
  match x, y with
  | Finite a, Finite b => Finite (a * b)
  | _, _ => NonFinite
  end.

(** [x / y]: a float64 division by zero yields inf or NaN (with a warning),
    never an exception.  In the cells below a divisor is never infinite. *)
Definition np_div (x y : np_float) : np_float :=
  match x, y with
  | Finite a, Finite b => if b == 0 then NonFinite else Finite (a / b)
  | _, _ => NonFinite
  end.

(** [np.sqrt]: NaN on a negative argument. *)
Definition np_sqrt (x : np_float) : np_float :=
  match x with
  | Finite a => if 0 <= a then Finite (Num.sqrt a) else NonFinite
  | NonFinite => NonFinite
  end.

(** [np.linalg.norm(r, 2)] of a column vector: the root of the sum of
    squares, for a one-dimensional array and for an array of shape (n, 1). *)
Definition np_linalg_norm (n : nat) (r : 'cV[R]_n) : R :=
  Num.sqrt (\sum_i r i 0 ^+ 2).

(** [np.linalg.inv]: the inverse, or [LinAlgError] ("Singular matrix"). *)
Definition np_linalg_inv (p : nat) (A : 'M[R]_p) : exc 'M[R]_p :=
  if A \in unitmx then Ok (invmx A) else LinAlgError.

(** [np.diag] of a vector of weights. *)
Definition np_diag (n : nat) (w : 'rV[R]_n) : 'M[R]_n := diag_mx w.

(** [np.ones(shape=(n, p))]. *)
Definition np_ones (n p : nat) : 'M[R]_(n, p) := const_mx 1.

(** [M[:, j] = c]: assignment to column [j]. *)
Definition set_col (n p : nat) (M : 'M[R]_(n, p)) (j : 'I_p) (c : 'cV[R]_n) :
  'M[R]_(n, p) :=
  \matrix_(i, k) if k == j then c i 0 else M i k.

(** The Python integer [n - p]. *)
Definition dof (n p : nat) : int := n%:Z - p%:Z.

(** The Student-t quantile function is a capability of [scipy.stats]; its
    values on the valid domain are the parameter [t_quantile df q]. *)
Variable t_quantile : int -> R -> R.

(** [stats.t.ppf(q, df)]: NaN outside [0 <= q <= 1] or for [df <= 0],
    -inf and +inf at [q = 0] and [q = 1]. *)
Definition stats_t_ppf (q : R) (df : int) : np_float :=
  if (0 < df) && (0 < q < 1) then Finite (t_quantile df q) else NonFinite.

End Numpy.

Arguments NonFinite {R}.

Declare Scope np_scope.
Delimit Scope np_scope with np.
Notation "x *f y" := (np_mul x y) (at level 40, left associativity) : np_scope.
Notation "x +f y" := (np_add x y) (at level 50, left associativity) : np_scope.
Notation "x /f y" := (np_div x y) (at level 40, left associativity) : np_scope.
Local Open Scope np_scope.

(** ** Design matrices *)

Section DesignMatrix.

Variable R : rcfType.

(** [tools.add_constant(x)] on a two-dimensional array of [k] predictor
    columns.

    Modelled from the spec: [add_constant] is a call into statsmodels, whose
    code is not part of the repository; the specification of the design
    matrix gives its result as a leading all-ones column followed by the
    predictor columns in the given order. *)
Definition add_constant (n k : nat) (x : 'M[R]_(n, k)) : 'M[R]_(n, 1 + k) :=
  row_mx (const_mx 1) x.

(** The multivariate cell: [x_design = np.ones(shape=(n, p))] with [p = 4],
    then one assignment to each of the columns 1, 2 and 3. *)
Definition x_design_multivariate (n : nat) (c1 c2 c3 : 'cV[R]_n) :
  'M[R]_(n, 4) :=
  let x_design := np_ones R n 4 in
  let x_design := set_col x_design (inord 1) c1 in
  let x_design := set_col x_design (inord 2) c2 in
  let x_design := set_col x_design (inord 3) c3 in
  x_design.

(** The same construction for any number of predictor columns: a matrix of
    ones, then column [j + 1] is assigned predictor [j], for [j] in order. *)
Definition assign_predictors (n k : nat) (cols : 'M[R]_(n, k))
    (M : 'M[R]_(n, 1 + k)) (js : seq 'I_k) : 'M[R]_(n, 1 + k) :=
  foldl (fun A j => set_col A (rshift 1 j) (col j cols)) M js.

Definition build (n k : nat) (cols : 'M[R]_(n, k)) : 'M[R]_(n, 1 + k) :=
  assign_predictors cols (np_ones R n (1 + k)) (enum 'I_k).

(** [x_to_predict_col_vec = np.array([[1], [x_to_predict]])]. *)
Definition x_to_predict_col_vec (x_to_predict : R) : 'cV[R]_(1 + 1) :=
  col_mx (1%:M : 'M[R]_1) (x_to_predict%:M : 'M[R]_1).

(** The coefficient column of a univariate fit, in design-matrix order:
    intercept first, then slope. *)
Definition coef_col (intercept slope : R) : 'cV[R]_(1 + 1) :=
  col_mx (intercept%:M : 'M[R]_1) (slope%:M : 'M[R]_1).

End DesignMatrix.

(** ** The interval cells

    Every cell that computes an interval by hand has the same shape; the cells
    differ in where the coefficients come from (scipy, sklearn) and in the
    weights.  The coefficients are an argument here: the cells use them only
    through [residuals] and [y_estimated]. *)

Section Residuals.

Variable R : rcfType.
Variables n p : nat.

(** [residuals = y - x_design @ coef.T] (multivariate cells). *)
Definition residuals (x_design : 'M[R]_(n, p)) (y : 'cV[R]_n)
    (coef : 'cV[R]_p) : 'cV[R]_n :=
  y - x_design *m coef.

(** [y_estimated = (x_to_predict_col_vec.T @ coef.T).item()]. *)
Definition y_estimated (q coef : 'cV[R]_p) : R := (q^T *m coef) 0 0.

(** [residuals = y_row - (x_row * slope + intercept)] (univariate cells). *)
Definition residuals_univariate (x y : 'cV[R]_n) (slope intercept : R) :
  'cV[R]_n :=
  \col_i (y i 0 - (x i 0 * slope + intercept)).

(** [y_estimated = x_to_predict * slope + intercept] (univariate cells). *)
Definition y_estimated_univariate (x_to_predict slope intercept : R) : R :=
  x_to_predict * slope + intercept.

End Residuals.

Module Unweighted.
Section Cells.

Variable R : rcfType.
Variable t_quantile : int -> R -> R.
Variables n p : nat.

(** [s_value = np.linalg.norm(residuals, 2) / np.sqrt(n - p)]. *)
Definition s_value (r : 'cV[R]_n) : np_float R :=
  Finite (np_linalg_norm r) /f np_sqrt (Finite (dof n p)%:~R).

(** [inner_sqrt_term = (x_to_predict_col_vec.T
      @ np.linalg.inv(x_design.T @ x_design) @ x_to_predict_col_vec)[0,0]]. *)
Definition inner_sqrt_term (x_design : 'M[R]_(n, p)) (q : 'cV[R]_p) : exc R :=
  let! inv := np_linalg_inv (x_design^T *m x_design) in
  Ok ((q^T *m inv *m q) 0 0).

(** [one_sided_CL_magnitude = stats.t.ppf(q = 1-(alpha/2), df = n-p)
      * s_value * np.sqrt(inner_sqrt_term)]. *)
Definition one_sided_CL_magnitude (alpha : R) (x_design : 'M[R]_(n, p))
    (r : 'cV[R]_n) (q : 'cV[R]_p) : exc (np_float R) :=
  let! inner := inner_sqrt_term x_design q in
  Ok (stats_t_ppf t_quantile (1 - alpha / 2) (dof n p)
      *f s_value r *f np_sqrt (Finite inner)).

(** [one_sided_PL_magnitude = stats.t.ppf(q = 1-alpha/2, df = n-p)
      * s_value * np.sqrt(1+inner_sqrt_term)]. *)
Definition one_sided_PL_magnitude (alpha : R) (x_design : 'M[R]_(n, p))
    (r : 'cV[R]_n) (q : 'cV[R]_p) : exc (np_float R) :=
  let! inner := inner_sqrt_term x_design q in
  Ok (stats_t_ppf t_quantile (1 - alpha / 2) (dof n p)
      *f s_value r *f np_sqrt (Finite (1 + inner))).

End Cells.
End Unweighted.

Module Weighted.
Section Cells.

Variable R : rcfType.
Variable t_quantile : int -> R -> R.
Variables n p : nat.

(** [s_squared_value = sum(y_weights * residuals**2) / (n - p)]. *)
Definition s_squared_value (y_weights : 'rV[R]_n) (r : 'cV[R]_n) :
  np_float R :=
  Finite (\sum_i y_weights 0 i * r i 0 ^+ 2) /f Finite (dof n p)%:~R.

(** [inner_sqrt_term = (x_to_predict_col_vec.T
      @ np.linalg.inv(x_design.T @ np.diag(y_weights) @ x_design)
      @ x_to_predict_col_vec)[0,0]]. *)
Definition inner_sqrt_term (x_design : 'M[R]_(n, p)) (y_weights : 'rV[R]_n)
    (q : 'cV[R]_p) : exc R :=
  let! inv := np_linalg_inv (x_design^T *m np_diag y_weights *m x_design) in
  Ok ((q^T *m inv *m q) 0 0).

(** [one_sided_CL_magnitude = stats.t.ppf(q = 1-(alpha/2), df = n-p)
      * np.sqrt(s_squared_value * inner_sqrt_term)]. *)
Definition one_sided_CL_magnitude (alpha : R) (x_design : 'M[R]_(n, p))
    (y_weights : 'rV[R]_n) (r : 'cV[R]_n) (q : 'cV[R]_p) :
  exc (np_float R) :=
  let! inner := inner_sqrt_term x_design y_weights q in
  Ok (stats_t_ppf t_quantile (1 - alpha / 2) (dof n p)
      *f np_sqrt (s_squared_value y_weights r *f Finite inner)).

(** [one_sided_PL_magnitude = stats.t.ppf(q = 1-alpha/2, df = n-p)
      * np.sqrt(s_squared_value + s_squared_value * inner_sqrt_term)]. *)
Definition one_sided_PL_magnitude (alpha : R) (x_design : 'M[R]_(n, p))
    (y_weights : 'rV[R]_n) (r : 'cV[R]_n) (q : 'cV[R]_p) :
  exc (np_float R) :=
  let! inner := inner_sqrt_term x_design y_weights q in
  Ok (stats_t_ppf t_quantile (1 - alpha / 2) (dof n p)
      *f np_sqrt (s_squared_value y_weights r
                  +f s_squared_value y_weights r *f Finite inner)).

End Cells.
End Weighted.

(** ** The quantities of the specification

    The specification states the fit and the intervals with the normal
    matrix X^T W X, the leverage h, the residual variance s^2 and the critical
    value t.  These definitions follow its words; the theorems relate the
    cells to them. *)

Section SpecQuantities.

Variable R : rcfType.
Variable t_quantile : int -> R -> R.
Variables n p : nat.

(** The weights of a fit: the given vector, or unit weights when absent. *)
Definition weights_of (weights : option 'rV[R]_n) : 'rV[R]_n :=
  if weights is Some w then w else const_mx 1.

(** X^T W X, with W the diagonal matrix of the weights. *)
Definition normal_matrix (X : 'M[R]_(n, p)) (weights : option 'rV[R]_n) :
  'M[R]_p :=
  X^T *m diag_mx (weights_of weights) *m X.

(** h = query^T (X^T W X)^-1 query. *)
Definition leverage (X : 'M[R]_(n, p)) (weights : option 'rV[R]_n)
    (query : 'cV[R]_p) : R :=
  (query^T *m invmx (normal_matrix X weights) *m query) 0 0.

(** s^2 = sum_i w_i r_i^2 / (n - p); the squared 2-norm of r over (n - p)
    when there are no weights. *)
Definition residual_variance (weights : option 'rV[R]_n) (r : 'cV[R]_n) : R :=
  (\sum_i weights_of weights 0 i * r i 0 ^+ 2) / (n%:R - p%:R).

(** t = the Student-t quantile with n - p degrees of freedom at
    1 - significance / 2. *)
Definition critical_value (significance : R) : R :=
  t_quantile (dof n p) (1 - significance / 2).

(** A fitted model: more observations than parameters, strictly positive
    weights, an invertible normal matrix. *)
Definition fitted (X : 'M[R]_(n, p)) (weights : option 'rV[R]_n) : bool :=
  [&& (p < n)%N, [forall i, 0 < weights_of weights 0 i]
    & normal_matrix X weights \in unitmx].

(** Modelled from the spec: the coefficients come from library fits
    ([stats.linregress], sklearn's [LinearRegression.fit], statsmodels'
    [OLS(...).fit()] and [WLS(...).fit()]), whose code is not part of the
    repository; the specification gives them as the solution of the weighted
    normal equations, beta = (X^T W X)^-1 X^T W y, with W the identity when
    no weights are given. *)
Definition fit (X : 'M[R]_(n, p)) (y : 'cV[R]_n)
    (weights : option 'rV[R]_n) : exc 'cV[R]_p :=
  let! inv := np_linalg_inv (normal_matrix X weights) in
  Ok (inv *m X^T *m diag_mx (weights_of weights) *m y).

End SpecQuantities.

(** ** The interval estimate, with or without weights

    The cell that applies depends on whether weights were given. *)

Section Estimate.

Variable R : rcfType.
Variable t_quantile : int -> R -> R.
Variables n p : nat.

Definition one_sided_CL_magnitude (alpha : R) (x_design : 'M[R]_(n, p))
    (weights : option 'rV[R]_n) (r : 'cV[R]_n) (q : 'cV[R]_p) :
  exc (np_float R) :=
  if weights is Some y_weights
  then Weighted.one_sided_CL_magnitude t_quantile alpha x_design y_weights r q
  else Unweighted.one_sided_CL_magnitude t_quantile alpha x_design r q.

Definition one_sided_PL_magnitude (alpha : R) (x_design : 'M[R]_(n, p))
    (weights : option 'rV[R]_n) (r : 'cV[R]_n) (q : 'cV[R]_p) :
  exc (np_float R) :=
  if weights is Some y_weights
  then Weighted.one_sided_PL_magnitude t_quantile alpha x_design y_weights r q
  else Unweighted.one_sided_PL_magnitude t_quantile alpha x_design r q.

(** The cells that follow a library fit: coefficients, then the point
    estimate and the two half-widths computed by hand. *)
Definition manual_intervals (alpha : R) (x_design : 'M[R]_(n, p))
    (y : 'cV[R]_n) (q : 'cV[R]_p) : exc (R * np_float R * np_float R) :=
  let! coef := fit x_design y None in
  let r := residuals x_design y coef in
  let! cl := Unweighted.one_sided_CL_magnitude t_quantile alpha x_design r q in
  let! pl := Unweighted.one_sided_PL_magnitude t_quantile alpha x_design r q in
  Ok (y_estimated q coef, cl, pl).

End Estimate.

(** ** The statsmodels path *)

Module Statsmodels.
Section Cells.

Variable R : rcfType.
Variable t_quantile : int -> R -> R.
Variables n p : nat.

(** One row of [prediction.summary_frame(alpha)], with [predicted_mean]. *)
Record summary_frame : Type := SummaryFrame {
  predicted_mean : R;
  mean_ci_upper : R;
  obs_ci_upper : R
}.

(** Modelled from the spec: [OLS(y, x_design).fit().get_prediction(q)] and
    its [summary_frame(alpha)] are calls into statsmodels, whose code is not
    part of the repository.  The specification of the interval estimator
    gives the point estimate query^T beta and the two intervals around it,
    of half-widths t sqrt(s^2 h) and t sqrt(s^2 (1 + h)); [mean_ci_upper] and
    [obs_ci_upper] are their upper ends. *)
Definition get_prediction (alpha : R) (x_design : 'M[R]_(n, p))
    (y : 'cV[R]_n) (q : 'cV[R]_p) : exc summary_frame :=
  let! beta := fit x_design y None in
  let s2 := residual_variance p None (residuals x_design y beta) in
  let h := leverage x_design None q in
  let t := critical_value t_quantile n p alpha in
  let mean := y_estimated q beta in
  Ok {| predicted_mean := mean;
        mean_ci_upper := mean + t * Num.sqrt (s2 * h);
        obs_ci_upper := mean + t * Num.sqrt (s2 * (1 + h)) |}.

(** [y_estimated = prediction.predicted_mean[0]]. *)
Definition y_estimated (prediction : summary_frame) : R :=
  predicted_mean prediction.

(** [one_sided_CL_magnitude = prediction.summary_frame(alpha=alpha)
      .mean_ci_upper.iloc[0] - prediction.predicted_mean[0]]. *)
Definition one_sided_CL_magnitude (prediction : summary_frame) : R :=
  mean_ci_upper prediction - predicted_mean prediction.

(** [one_sided_PL_magnitude = prediction.summary_frame(alpha=alpha)
      .obs_ci_upper.iloc[0] - prediction.predicted_mean[0]]. *)
Definition one_sided_PL_magnitude (prediction : summary_frame) : R :=
  obs_ci_upper prediction - predicted_mean prediction.

End Cells.
End Statsmodels.

(** ** Worked instances

    Student's t distribution with two degrees of freedom has a quantile
    function in closed form; it stands for [t_quantile] in the instances
    below (those with a finite critical value have n - p = 2). *)

Definition t2_quantile (R : rcfType) (df : int) (q : R) : R :=
  (2 * q - 1) / Num.sqrt (2 * q * (1 - q)).

(** The predictor values 0, 1, ..., n - 1. *)
Definition ramp (R : rcfType) (n : nat) : 'cV[R]_n := \col_i (i : nat)%:R.

(** Four observations of a univariate model, over the real algebraic
    numbers: x = 0, 1, 2, 3 and y = 1, 3, 2, 5, weights 1, 2, 3, 4,
    a prediction at x = 6 and significance 0.05. *)
Definition demo_x : 'cV[algR]_4 := ramp algR 4.
Definition demo_y : 'cV[algR]_4 := \col_i nth 0 [:: 1; 3; 2; 5] i.
Definition demo_weights : 'rV[algR]_4 := \row_i (i : nat).+1%:R.
Definition demo_x_design : 'M[algR]_(4, 1 + 1) := add_constant demo_x.
Definition demo_coef : 'cV[algR]_(1 + 1) :=
  coef_col (11%:R / 10%:R) (11%:R / 10%:R).
Definition demo_q : 'cV[algR]_(1 + 1) := x_to_predict_col_vec 6%:R.
Definition demo_alpha : algR := 20%:R^-1.

(** Observations on a line: y = x, fitted exactly by intercept 0, slope 1. *)
Definition line_y : 'cV[algR]_4 := ramp algR 4.
Definition line_coef : 'cV[algR]_(1 + 1) := coef_col 0 1.

(** As many observations as parameters: x = 0, 1 and y = 1, 3. *)
Definition square_x_design : 'M[algR]_(2, 1 + 1) := add_constant (ramp algR 2).
Definition square_y : 'cV[algR]_2 := \col_i nth 0 [:: 1; 3] i.
Definition square_coef : 'cV[algR]_(1 + 1) := coef_col 1 2.

(** Fewer observations than parameters: the single observation x = 0, y = 1. *)
Definition short_x_design : 'M[algR]_(1, 1 + 1) := add_constant (ramp algR 1).
Definition short_y : 'cV[algR]_1 := const_mx 1.

(** ** The cells around the interval cells

    The synthetic data, the weights built from standard deviations and the
    model function handed to the orthogonal-distance regression.  The random
    draws and the grids of [np.linspace] are arguments. *)

Section Generation.

Variable R : rcfType.
Variable n : nat.

(** [x = np.linspace(...) + np.random.normal(...)] (univariate cell), as a
    column after [x.reshape(-1, 1)]. *)
Definition x_generated (grid x_noise : 'cV[R]_n) : 'cV[R]_n := grid + x_noise.

(** [y = real_slope * np.linspace(...) + real_intercept
      + np.random.normal(...)] (univariate cell): the response is computed
    from the grid, not from [x]. *)
Definition y_generated (real_slope real_intercept : R)
    (grid y_noise : 'cV[R]_n) : 'cV[R]_n :=
  \col_i (real_slope * grid i 0 + real_intercept + y_noise i 0).

(** [y = x_design[:,1] * real_slope_a + x_design[:,2] * real_slope_b
      + x_design[:,3] * real_slope_c + real_intercept
      + np.random.normal(...)] (multivariate cell). *)
Definition y_generated_multivariate (x_design : 'M[R]_(n, 4))
    (real_slope_a real_slope_b real_slope_c real_intercept : R)
    (y_noise : 'cV[R]_n) : 'cV[R]_n :=
  \col_i (x_design i (inord 1) * real_slope_a
          + x_design i (inord 2) * real_slope_b
          + x_design i (inord 3) * real_slope_c
          + real_intercept + y_noise i 0).

(** The generating coefficients as a column, in design-matrix order. *)
Definition real_coef (real_slope_a real_slope_b real_slope_c
    real_intercept : R) : 'cV[R]_4 :=
  \col_j nth 0 [:: real_intercept; real_slope_a; real_slope_b; real_slope_c] j.

(** [def univariate_linear_function(params, x):
       return params[0] + params[1] * x]
    on a Python list of parameters and a row vector; [None] is the
    [IndexError] of a list with fewer than two entries. *)
Definition univariate_linear_function (params : seq R) (x : 'rV[R]_n) :
  option 'rV[R]_n :=
  match params with
  | [:: params0, params1 & _] => Some (\row_i (params0 + params1 * x 0 i))
  | _ => None
  end.

End Generation.

(** ** Weights from standard deviations

    [y_weights = 1/abs(np.random.normal(...))**2] divides by zero when a draw
    is zero, and [sy = 1/np.sqrt(y_weights)] then divides by infinity: the two
    infinities and NaN are told apart here.  A zero is the float +0.0 (the
    zeros that occur are an absolute value squared and the square root of a
    positive number). *)

Section Weights.

Variable R : rcfType.

Inductive float64 : Type :=
  | FReal of R
  | FPosInf
  | FNegInf
  | FNaN.

(** [1 / x]. *)
Definition float_reciprocal (x : float64) : float64 :=
  match x with
  | FReal a => if a == 0 then FPosInf else FReal a^-1
  | FPosInf | FNegInf => FReal 0
  | FNaN => FNaN
  end.

(** [np.sqrt(x)]. *)
Definition float_sqrt (x : float64) : float64 :=
  match x with
  | FReal a => if 0 <= a then FReal (Num.sqrt a) else FNaN
  | FPosInf => FPosInf
  | FNegInf | FNaN => FNaN
  end.

(** One entry of [1/abs(draw)**2]. *)
Definition weight_of_draw (draw : R) : float64 :=
  float_reciprocal (FReal (`|draw| ^+ 2)).

(** One entry of [1/np.sqrt(y_weights)], the [sx] and [sy] of
    [odr.RealData]. *)
Definition sigma_of_weight (weight : float64) : float64 :=
  float_reciprocal (float_sqrt weight).

End Weights.

Arguments FPosInf {R}.
Arguments FNegInf {R}.
Arguments FNaN {R}.


(** * Properties *)

(** ** Design matrices *)

Section Design.
Variable R : rcfType.
Variables n k : nat.
Implicit Types (cols : 'M[R]_(n, k)) (M : 'M[R]_(n, 1 + k)).

Lemma add_constant_col0 cols i : add_constant cols i 0 = 1.
Proof.
have -> : (0 : 'I_(1 + k)) = lshift k 0 by apply/val_inj.
by rewrite row_mxEl mxE.
Qed.

Lemma add_constant_colS cols i j : add_constant cols i (rshift 1 j) = cols i j.
Proof. by rewrite row_mxEr. Qed.

Lemma set_colE M (j : 'I_(1 + k)) (c : 'cV[R]_n) i l :
  set_col M j c i l = if l == j then c i 0 else M i l.
Proof. by rewrite mxE. Qed.

Lemma assign_predictorsE cols M js i (l : 'I_(1 + k)) :
  assign_predictors cols M js i l
  = match split l with
    | inl _ => M i l
    | inr j => if j \in js then cols i j else M i l
    end.
Proof.
elim: js M => [|j js IH] M /=; first by case: (split l).
rewrite IH set_colE; case: (splitP l) => [l0 l_eq|j' l_eq].
  by rewrite -val_eqE /= l_eq ord1.
have -> : (l == rshift 1 j) = (j' == j).
  by rewrite -!val_eqE /= l_eq eqn_add2l.
rewrite in_cons mxE; case: (j' =P j) => [->|_] //=.
by rewrite if_same.
Qed.

Lemma build_add_constant cols : build cols = add_constant cols.
Proof.
apply/matrixP => i l; rewrite /build assign_predictorsE.
case: (splitP l) => [l0 l_eq|j l_eq].
  have -> : l = lshift k 0 by apply/val_inj; rewrite /= l_eq ord1.
  by rewrite row_mxEl !mxE.
have -> : l = rshift 1 j by apply/val_inj.
by rewrite mem_enum row_mxEr.
Qed.

Lemma x_design_multivariateE (c1 c2 c3 : 'cV[R]_n) i :
  [/\ x_design_multivariate c1 c2 c3 i (inord 0) = 1,
      x_design_multivariate c1 c2 c3 i (inord 1) = c1 i 0,
      x_design_multivariate c1 c2 c3 i (inord 2) = c2 i 0
    & x_design_multivariate c1 c2 c3 i (inord 3) = c3 i 0].
Proof.
by rewrite /x_design_multivariate /= !mxE -!val_eqE /= !inordK.
Qed.

End Design.

Section Univariate.
Variable R : rcfType.
Variable n : nat.
Implicit Types (x y : 'cV[R]_n).

Lemma add_constant_mul x (z : 'cV[R]_(1 + 1)) i :
  (add_constant x *m z) i 0 = z 0 0 + x i 0 * z (rshift 1 0) 0.
Proof.
rewrite -[z in LHS]vsubmxK mul_row_col mxE.
congr (_ + _); rewrite mxE big_ord_recl big_ord0 addr0 !mxE ?mul1r //.
by congr (z _ _); apply/val_inj.
Qed.

Lemma coef_colE (a b : R) :
  coef_col a b 0 0 = a /\ coef_col a b (rshift 1 0) 0 = b.
Proof.
split; last by rewrite col_mxEd mxE eqxx mulr1n.
have -> : (0 : 'I_(1 + 1)) = lshift 1 0 by apply/val_inj.
by rewrite col_mxEu mxE eqxx mulr1n.
Qed.

Lemma residuals_univariateE x y slope intercept :
  residuals_univariate x y slope intercept
  = residuals (add_constant x) y (coef_col intercept slope).
Proof.
apply/matrixP => i j; rewrite ord1 /residuals mxE [RHS]mxE.
rewrite [X in _ = _ + X]mxE.
rewrite add_constant_mul; case: (coef_colE intercept slope) => -> ->.
by rewrite [intercept + _]addrC.
Qed.

Lemma y_estimated_univariateE (x_to_predict slope intercept : R) :
  y_estimated_univariate x_to_predict slope intercept
  = y_estimated (x_to_predict_col_vec x_to_predict) (coef_col intercept slope).
Proof.
rewrite /y_estimated /y_estimated_univariate /x_to_predict_col_vec /coef_col.
rewrite tr_col_mx mul_row_col !tr_scalar_mx !mul_scalar_mx !mxE.
by rewrite !eqxx !mulr1n mul1r addrC.
Qed.

End Univariate.

(** ** Quadratic forms, degrees of freedom and the residual variance *)

Section Algebra.
Variable R : rcfType.
Variables n p : nat.
Implicit Types (X : 'M[R]_(n, p)) (w : 'rV[R]_n) (u r : 'cV[R]_n).
Implicit Types (q : 'cV[R]_p).

Lemma quad_form_diag w u :
  (u^T *m diag_mx w *m u) 0 0 = \sum_i w 0 i * u i 0 ^+ 2.
Proof.
rewrite mxE; apply: eq_bigr => i _.
by rewrite mul_mx_diag !mxE expr2 mulrAC mulrC mulrA.
Qed.

Lemma quad_form_ge0 w u :
  (forall i, 0 <= w 0 i) -> 0 <= (u^T *m diag_mx w *m u) 0 0.
Proof.
move=> w_ge0; rewrite quad_form_diag; apply: sumr_ge0 => i _.
by rewrite mulr_ge0 ?sqr_ge0.
Qed.

Lemma normal_matrix_sym X weights :
  (normal_matrix X weights)^T = normal_matrix X weights.
Proof. by rewrite /normal_matrix !trmx_mul tr_diag_mx trmxK mulmxA. Qed.

Lemma leverage_ge0 X weights q :
  (forall i, 0 <= weights_of weights 0 i) ->
  normal_matrix X weights \in unitmx ->
  0 <= leverage X weights q.
Proof.
move=> w_ge0 A_unit; rewrite /leverage.
set A := normal_matrix X weights in A_unit *.
pose z := invmx A *m q.
have qE : q = A *m z by rewrite /z mulKVmx.
have -> : q^T *m invmx A *m q
          = (X *m z)^T *m diag_mx (weights_of weights) *m (X *m z).
  rewrite -mulmxA -/z {1}qE trmx_mul normal_matrix_sym -/A.
  by rewrite /A /normal_matrix trmx_mul !mulmxA.
exact: quad_form_ge0.
Qed.

Lemma diag_mx_ones : diag_mx (const_mx 1 : 'rV[R]_n) = 1%:M.
Proof. by rewrite diag_const_mx. Qed.

Lemma normal_matrix_unweighted X : normal_matrix X None = X^T *m X.
Proof. by rewrite /normal_matrix /= diag_mx_ones mulmx1. Qed.

Lemma dofE : (dof n p)%:~R = n%:R - p%:R :> R.
Proof. by rewrite /dof rmorphB /=. Qed.

Lemma dof_gt0 : (p < n)%N -> 0 < dof n p.
Proof. by move=> lt_pn; rewrite /dof subr_gt0 ltz_nat. Qed.

Lemma dofR_gt0 : (p < n)%N -> 0 < (dof n p)%:~R :> R.
Proof. by move=> lt_pn; rewrite ltr0z dof_gt0. Qed.

Lemma dof_eq0 : n = p -> dof n p = 0.
Proof. by move=> ->; rewrite /dof subrr. Qed.

Lemma sum_sqr_ge0 r : 0 <= \sum_i r i 0 ^+ 2 :> R.
Proof. by apply: sumr_ge0 => i _; rewrite sqr_ge0. Qed.

Lemma sum_wsqr_ge0 w r :
  (forall i, 0 <= w 0 i) -> 0 <= \sum_i w 0 i * r i 0 ^+ 2.
Proof. by move=> w_ge0; apply: sumr_ge0 => i _; rewrite mulr_ge0 ?sqr_ge0. Qed.

Lemma residual_variance_unweighted r :
  residual_variance p None r = (\sum_i r i 0 ^+ 2) / (n%:R - p%:R).
Proof.
rewrite /residual_variance /=; congr (_ / _).
by apply: eq_bigr => i _; rewrite mxE mul1r.
Qed.

Lemma residual_variance_ge0 weights r :
  (p < n)%N -> (forall i, 0 <= weights_of weights 0 i) ->
  0 <= residual_variance p weights r.
Proof.
move=> lt_pn w_ge0; rewrite /residual_variance divr_ge0 ?sum_wsqr_ge0 //.
by rewrite -dofE ltW ?dofR_gt0.
Qed.

Lemma s_valueE r :
  (p < n)%N ->
  Unweighted.s_value p r = Finite (Num.sqrt (residual_variance p None r)).
Proof.
move=> lt_pn; rewrite /Unweighted.s_value /np_linalg_norm /=.
have d_gt0 := dofR_gt0 lt_pn.
rewrite (ltW d_gt0) /= gt_eqF ?sqrtr_gt0 //.
rewrite residual_variance_unweighted sqrtrM ?sum_sqr_ge0 //.
by rewrite sqrtrV ?dofE // -dofE ltW.
Qed.

Lemma s_squared_valueE w r :
  (p < n)%N ->
  Weighted.s_squared_value p w r = Finite (residual_variance p (Some w) r).
Proof.
move=> lt_pn; rewrite /Weighted.s_squared_value /= gt_eqF ?dofR_gt0 //.
by rewrite /residual_variance dofE.
Qed.

End Algebra.

(** ** Invertibility of the normal matrix *)

Section Rank.
Variable R : rcfType.
Variables n p : nat.
Implicit Types (X : 'M[R]_(n, p)) (w : 'rV[R]_n) (u r : 'cV[R]_n).
Implicit Types (q : 'cV[R]_p).


Lemma normal_matrix_unit X weights :
  (forall i, 0 < weights_of weights 0 i) ->
  (forall z : 'cV[R]_p, X *m z = 0 -> z = 0) ->
  normal_matrix X weights \in unitmx.
Proof.
move=> w_gt0 X_inj; rewrite -row_free_unit -kermx_eq0.
apply/rowV0P => v /sub_kermxP vA0.
suff: v^T = 0 by move/(congr1 trmx); rewrite trmxK trmx0.
apply: X_inj; apply/matrixP => i j; rewrite ord1 [in RHS]mxE.
have: (v *m normal_matrix X weights *m v^T) 0 0 = 0 by rewrite vA0 mul0mx mxE.
have -> : v *m normal_matrix X weights *m v^T
          = (X *m v^T)^T *m diag_mx (weights_of weights) *m (X *m v^T).
  by rewrite /normal_matrix trmx_mul trmxK !mulmxA.
rewrite quad_form_diag.
have term_ge0 k : true -> 0 <= weights_of weights 0 k * (X *m v^T) k 0 ^+ 2.
  by move=> _; rewrite mulr_ge0 ?sqr_ge0 // ltW.
move/eqP; rewrite (psumr_eq0 _ term_ge0).
move/allP => /(_ i); rewrite mem_index_enum => /(_ isT) /=.
by rewrite mulf_eq0 gt_eqF //= sqrf_eq0 => /eqP.
Qed.

End Rank.

(** ** Evaluating the interval cells on a fitted model *)

Section Intervals.
Variable R : rcfType.
Variable t_quantile : int -> R -> R.
Variables n p : nat.
Implicit Types (X : 'M[R]_(n, p)) (w : 'rV[R]_n) (r : 'cV[R]_n).
Implicit Types (q : 'cV[R]_p) (alpha : R) (weights : option 'rV[R]_n).

Lemma fittedP X weights :
  fitted X weights ->
  [/\ (p < n)%N, forall i, 0 < weights_of weights 0 i
    & normal_matrix X weights \in unitmx].
Proof. by case/and3P => lt_pn /forallP w_gt0 A_unit. Qed.

Lemma upper_tail_level alpha : 0 < alpha < 1 -> 0 < 1 - alpha / 2 < 1.
Proof. by case/andP => a_gt0 a_lt1; apply/andP; split; lra. Qed.

Lemma t_ppfE alpha :
  (p < n)%N -> 0 < alpha < 1 ->
  stats_t_ppf t_quantile (1 - alpha / 2) (dof n p)
  = Finite (critical_value t_quantile n p alpha).
Proof.
by move=> lt_pn /upper_tail_level lvl; rewrite /stats_t_ppf dof_gt0 ?lvl.
Qed.

Lemma np_linalg_inv_unit (A : 'M[R]_p) :
  A \in unitmx -> np_linalg_inv A = Ok (invmx A).
Proof. by rewrite /np_linalg_inv => ->. Qed.


Lemma inner_sqrt_termE X q :
  normal_matrix X None \in unitmx ->
  Unweighted.inner_sqrt_term X q = Ok (leverage X None q).
Proof.
rewrite /Unweighted.inner_sqrt_term /leverage normal_matrix_unweighted.
by move/np_linalg_inv_unit => ->.
Qed.

Lemma inner_sqrt_term_wE X w q :
  normal_matrix X (Some w) \in unitmx ->
  Weighted.inner_sqrt_term X w q = Ok (leverage X (Some w) q).
Proof.
by rewrite /Weighted.inner_sqrt_term /leverage => /np_linalg_inv_unit ->.
Qed.

Lemma weights_ge0 weights :
  (forall i, 0 < weights_of weights 0 i) ->
  forall i, 0 <= weights_of weights 0 i.
Proof. by move=> w_gt0 i; rewrite ltW. Qed.

Lemma CL_unweightedE alpha X r q :
  fitted X None -> 0 < alpha < 1 ->
  Unweighted.one_sided_CL_magnitude t_quantile alpha X r q
  = Ok (Finite (critical_value t_quantile n p alpha
                * Num.sqrt (residual_variance p None r * leverage X None q))).
Proof.
case/fittedP => lt_pn /weights_ge0 w_ge0 A_unit lvl.
rewrite /Unweighted.one_sided_CL_magnitude inner_sqrt_termE //=.
rewrite t_ppfE // s_valueE // leverage_ge0 //=.
by rewrite -mulrA -sqrtrM ?residual_variance_ge0.
Qed.

Lemma PL_unweightedE alpha X r q :
  fitted X None -> 0 < alpha < 1 ->
  Unweighted.one_sided_PL_magnitude t_quantile alpha X r q
  = Ok (Finite (critical_value t_quantile n p alpha
                * Num.sqrt (residual_variance p None r
                            * (1 + leverage X None q)))).
Proof.
case/fittedP => lt_pn /weights_ge0 w_ge0 A_unit lvl.
rewrite /Unweighted.one_sided_PL_magnitude inner_sqrt_termE //=.
rewrite t_ppfE // s_valueE // addr_ge0 ?leverage_ge0 //=.
by rewrite -mulrA -sqrtrM ?residual_variance_ge0.
Qed.

Lemma CL_weightedE alpha X w r q :
  fitted X (Some w) -> 0 < alpha < 1 ->
  Weighted.one_sided_CL_magnitude t_quantile alpha X w r q
  = Ok (Finite (critical_value t_quantile n p alpha
                * Num.sqrt (residual_variance p (Some w) r
                            * leverage X (Some w) q))).
Proof.
case/fittedP => lt_pn /weights_ge0 w_ge0 A_unit lvl.
rewrite /Weighted.one_sided_CL_magnitude inner_sqrt_term_wE //=.
rewrite t_ppfE // s_squared_valueE //=.
by rewrite mulr_ge0 ?residual_variance_ge0 ?leverage_ge0.
Qed.

Lemma PL_weightedE alpha X w r q :
  fitted X (Some w) -> 0 < alpha < 1 ->
  Weighted.one_sided_PL_magnitude t_quantile alpha X w r q
  = Ok (Finite (critical_value t_quantile n p alpha
                * Num.sqrt (residual_variance p (Some w) r
                            * (1 + leverage X (Some w) q)))).
Proof.
case/fittedP => lt_pn /weights_ge0 w_ge0 A_unit lvl.
rewrite /Weighted.one_sided_PL_magnitude inner_sqrt_term_wE //=.
rewrite t_ppfE // s_squared_valueE //=.
rewrite -[X in X + _]mulr1 -mulrDr.
by rewrite mulr_ge0 ?residual_variance_ge0 ?addr_ge0 ?leverage_ge0.
Qed.

End Intervals.

(** ** The quantile function at two degrees of freedom *)

Section StudentT2.
Variable R : rcfType.
Implicit Types (q : R) (df : int).

Let g q : R := 2 * q * (1 - q).

Lemma t2_scale_gt0 q : 0 < q < 1 -> 0 < Num.sqrt (g q).
Proof. by case/andP => q_gt0 q_lt1; rewrite sqrtr_gt0 /g; nra. Qed.

Lemma t2_quantile_gt0 df q : 0 < df -> 2^-1 < q < 1 -> 0 < t2_quantile df q.
Proof.
move=> _ /andP[q_gt q_lt1]; rewrite /t2_quantile divr_gt0 //; first by lra.
by apply: t2_scale_gt0; apply/andP; split; lra.
Qed.

Lemma t2_quantile_upper q1 q2 :
  2^-1 <= q1 -> q1 <= q2 -> q2 < 1 ->
  (2 * q1 - 1) / Num.sqrt (g q1) <= (2 * q2 - 1) / Num.sqrt (g q2).
Proof.
move=> q1_ge le_q12 q2_lt1.
have s1_gt0 : 0 < Num.sqrt (g q1).
  by apply: t2_scale_gt0; apply/andP; split; lra.
have s2_gt0 : 0 < Num.sqrt (g q2).
  by apply: t2_scale_gt0; apply/andP; split; lra.
have prod_ge0 : 0 <= (q2 - q1) * (q1 + q2 - 1) by rewrite mulr_ge0 //; lra.
apply: ler_pM; first by lra.
- by rewrite invr_ge0 ltW.
- by lra.
by rewrite lef_pV2 ?posrE // ler_wsqrtr // /g; lra.
Qed.

Lemma t2_quantile_mono df q1 q2 :
  0 < df -> 0 < q1 -> q1 <= q2 -> q2 < 1 ->
  t2_quantile df q1 <= t2_quantile df q2.
Proof.
move=> _ q1_gt0 le_q12 q2_lt1; rewrite /t2_quantile -!/(g _).
have s1_gt0 : 0 < Num.sqrt (g q1).
  by apply: t2_scale_gt0; apply/andP; split; lra.
have s2_gt0 : 0 < Num.sqrt (g q2).
  by apply: t2_scale_gt0; apply/andP; split; lra.
have [q2_le|q2_gt] := leP q2 2^-1.
  have gE q : g (1 - q) = g q by rewrite /g; ring.
  have : (2 * (1 - q2) - 1) / Num.sqrt (g (1 - q2))
         <= (2 * (1 - q1) - 1) / Num.sqrt (g (1 - q1)).
    by apply: t2_quantile_upper; lra.
  have -> : 2 * (1 - q2) - 1 = - (2 * q2 - 1) by ring.
  have -> : 2 * (1 - q1) - 1 = - (2 * q1 - 1) by ring.
  by rewrite !gE !mulNr lerN2.
have [q1_le|q1_gt] := leP q1 2^-1; last by apply: t2_quantile_upper; lra.
apply: (@le_trans _ _ 0).
  by rewrite mulr_le0_ge0 ?invr_ge0 //; [lra | exact: ltW].
by rewrite divr_ge0 //; [lra | exact: ltW].
Qed.
End StudentT2.

(** ** Univariate designs over a ramp *)

Section Ramp.
Variable R : rcfType.
Variable n : nat.
Implicit Types (weights : option 'rV[R]_n).

Lemma col2_eq0 (z : 'cV[R]_(1 + 1)) :
  z 0 0 = 0 -> z (rshift 1 0) 0 = 0 -> z = 0.
Proof.
move=> z0 z1; apply/matrixP => l j; rewrite ord1 mxE.
case: (splitP l) => [l0 l_eq|l1 l_eq].
  by rewrite -[RHS]z0; congr (z _ _); apply/val_inj; rewrite /= l_eq ord1.
by rewrite -[RHS]z1; congr (z _ _); apply/val_inj; rewrite /= l_eq ord1.
Qed.

Lemma ramp_unit weights :
  (1 < n)%N -> (forall i, 0 < weights_of weights 0 i) ->
  normal_matrix (add_constant (ramp R n)) weights \in unitmx.
Proof.
move=> lt_1n w_gt0; apply: normal_matrix_unit => // z Xz0.
have lt_0n : (0 < n)%N by apply: ltn_trans lt_1n.
have := congr1 (fun M : 'cV[R]_n => M (Ordinal lt_0n) 0) Xz0.
have := congr1 (fun M : 'cV[R]_n => M (Ordinal lt_1n) 0) Xz0.
rewrite /= !add_constant_mul !mxE /= mul0r mul1r addr0 => z01 z0.
by apply: col2_eq0 => //; move: z01; rewrite z0 add0r.
Qed.

Lemma ramp_fitted weights :
  (2 < n)%N -> (forall i, 0 < weights_of weights 0 i) ->
  fitted (add_constant (ramp R n)) weights.
Proof.
move=> lt_2n w_gt0; apply/and3P; split=> //; first by apply/forallP.
by apply: ramp_unit => //; apply: ltn_trans lt_2n.
Qed.

Lemma unit_weights_gt0 i : 0 < weights_of (None : option 'rV[R]_n) 0 i.
Proof. by rewrite /= mxE ltr01. Qed.

End Ramp.

(** ** The worked instances *)

Lemma demo_alpha_level : 0 < demo_alpha < 1.
Proof.
by rewrite /demo_alpha invr_gt0 ltr0n invf_lt1 ?ltr0n // ltr1n.
Qed.

Lemma demo_weights_gt0 i : 0 < weights_of (Some demo_weights) 0 i.
Proof. by rewrite /= mxE ltr0n. Qed.

Lemma demo_fitted : fitted demo_x_design None.
Proof. by apply: ramp_fitted => // i; apply: unit_weights_gt0. Qed.

Lemma demo_fitted_weighted : fitted demo_x_design (Some demo_weights).
Proof. by apply: ramp_fitted => // i; apply: demo_weights_gt0. Qed.

Lemma line_residuals : residuals demo_x_design line_y line_coef = 0.
Proof.
rewrite /demo_x_design /line_coef -residuals_univariateE.
by apply/matrixP => i j; rewrite !mxE mulr1 addr0 subrr.
Qed.

Lemma square_unit weights :
  (forall i, 0 < weights_of weights 0 i) ->
  normal_matrix square_x_design weights \in unitmx.
Proof. by move=> w_gt0; apply: ramp_unit. Qed.

(** ** Both cells at once *)

Section Claims.
Variable R : rcfType.
Variable t_quantile : int -> R -> R.
Variables n p : nat.
Implicit Types (X : 'M[R]_(n, p)) (y r : 'cV[R]_n) (q coef : 'cV[R]_p).
Implicit Types (alpha : R) (weights : option 'rV[R]_n).

Lemma CL_fittedE alpha X weights r q :
  fitted X weights -> 0 < alpha < 1 ->
  one_sided_CL_magnitude t_quantile alpha X weights r q
  = Ok (Finite (critical_value t_quantile n p alpha
                * Num.sqrt (residual_variance p weights r
                            * leverage X weights q))).
Proof.
case: weights => [w|] fit_X lvl /=; first exact: CL_weightedE.
exact: CL_unweightedE.
Qed.

Lemma PL_fittedE alpha X weights r q :
  fitted X weights -> 0 < alpha < 1 ->
  one_sided_PL_magnitude t_quantile alpha X weights r q
  = Ok (Finite (critical_value t_quantile n p alpha
                * Num.sqrt (residual_variance p weights r
                            * (1 + leverage X weights q)))).
Proof.
case: weights => [w|] fit_X lvl /=; first exact: PL_weightedE.
exact: PL_unweightedE.
Qed.

End Claims.

(** ** Comparing the two half-widths *)

Section Order.
Variable R : rcfType.
Variable t_quantile : int -> R -> R.
Variables n p : nat.
Implicit Types (X : 'M[R]_(n, p)) (y r : 'cV[R]_n) (q coef : 'cV[R]_p).
Implicit Types (alpha : R) (weights : option 'rV[R]_n).

Lemma upper_tail_above_half alpha : 0 < alpha < 1 -> 2^-1 < 1 - alpha / 2 < 1.
Proof. by case/andP => a_gt0 a_lt1; apply/andP; split; lra. Qed.

Lemma sqrt_variance_le (s2 h : R) :
  0 <= s2 -> 0 <= h -> Num.sqrt (s2 * h) <= Num.sqrt (s2 * (1 + h)).
Proof.
move=> s2_ge0 h_ge0; apply: ler_wsqrtr.
by rewrite ler_wpM2l // lerDr.
Qed.

Lemma sqrt_variance_lt (s2 h : R) :
  0 <= s2 -> 0 <= h ->
  (Num.sqrt (s2 * h) < Num.sqrt (s2 * (1 + h))) = (0 < s2).
Proof.
move=> s2_ge0 h_ge0; move: s2_ge0; rewrite le_eqVlt => /predU1P[<-|s2_gt0].
  by rewrite !mul0r ltxx.
rewrite s2_gt0 ltr_sqrt ?mulr_gt0 ?ltr_wpDr //.
by rewrite ltr_pM2l // ltrDr ltr01.
Qed.

Hypothesis t_quantile_gt0 :
  forall q : R, 2^-1 < q < 1 -> 0 < t_quantile (dof n p) q.

Lemma critical_value_gt0 alpha :
  0 < alpha < 1 -> 0 < critical_value t_quantile n p alpha.
Proof. by move/upper_tail_above_half; apply: t_quantile_gt0. Qed.

Lemma half_widths_ordered alpha X weights r q :
  fitted X weights -> 0 < alpha < 1 ->
  exists cl pl : R,
    [/\ one_sided_CL_magnitude t_quantile alpha X weights r q
         = Ok (Finite cl),
        one_sided_PL_magnitude t_quantile alpha X weights r q
         = Ok (Finite pl),
        0 <= cl, cl <= pl
      & (cl < pl) = (0 < residual_variance p weights r)].
Proof.
move=> fit_X lvl; have [lt_pn /weights_ge0 w_ge0 A_unit] := fittedP fit_X.
have t_gt0 := critical_value_gt0 lvl.
have s2_ge0 := residual_variance_ge0 r lt_pn w_ge0.
have h_ge0 := leverage_ge0 q w_ge0 A_unit.
rewrite CL_fittedE // PL_fittedE //.
do 2![eexists]; split; [by [] | by [] | | |].
- by rewrite mulr_ge0 ?sqrtr_ge0 // ltW.
- by rewrite ler_wpM2l ?sqrt_variance_le // ltW.
- by rewrite ltr_pM2l // sqrt_variance_lt.
Qed.

End Order.

(** ** The critical value along the significance level *)

Section Monotone.
Variable R : rcfType.
Variable t_quantile : int -> R -> R.
Variables n p : nat.
Implicit Types (X : 'M[R]_(n, p)) (y r : 'cV[R]_n) (q coef : 'cV[R]_p).
Implicit Types (weights : option 'rV[R]_n).

Hypothesis t_quantile_mono :
  forall q1 q2 : R, 0 < q1 -> q1 <= q2 -> q2 < 1 ->
  t_quantile (dof n p) q1 <= t_quantile (dof n p) q2.

Lemma critical_value_anti (a b : R) :
  0 < a -> a <= b -> b < 1 ->
  critical_value t_quantile n p b <= critical_value t_quantile n p a.
Proof.
by move=> a_gt0 le_ab b_lt1; apply: t_quantile_mono; lra.
Qed.

End Monotone.

(** ** No degrees of freedom, singular normal matrix *)

Section Degenerate.
Variable R : rcfType.
Variable t_quantile : int -> R -> R.
Variables n p : nat.
Implicit Types (X : 'M[R]_(n, p)) (y r : 'cV[R]_n) (q coef : 'cV[R]_p).
Implicit Types (alpha : R) (weights : option 'rV[R]_n) (w : 'rV[R]_n).

Lemma s_value_degenerate r : n = p -> Unweighted.s_value p r = NonFinite.
Proof.
by move=> eq_np; rewrite /Unweighted.s_value dof_eq0 //= lexx sqrtr0 eqxx.
Qed.


Lemma t_ppf_degenerate (level : R) :
  (n <= p)%N -> stats_t_ppf t_quantile level (dof n p) = NonFinite.
Proof.
by move=> le_np; rewrite /stats_t_ppf /dof subr_gt0 ltz_nat ltnNge le_np.
Qed.

Lemma half_widths_degenerate alpha X weights r q :
  (n <= p)%N -> normal_matrix X weights \in unitmx ->
  one_sided_CL_magnitude t_quantile alpha X weights r q = Ok NonFinite
  /\ one_sided_PL_magnitude t_quantile alpha X weights r q = Ok NonFinite.
Proof.
move=> le_np; case: weights => [w|] A_unit /=.
  rewrite /Weighted.one_sided_CL_magnitude /Weighted.one_sided_PL_magnitude.
  by rewrite inner_sqrt_term_wE //= t_ppf_degenerate.
rewrite /Unweighted.one_sided_CL_magnitude /Unweighted.one_sided_PL_magnitude.
by rewrite inner_sqrt_termE //= t_ppf_degenerate.
Qed.


End Degenerate.

(** ** More facts about the worked instances *)

Lemma t2_quantile_mono_at (n p : nat) (q1 q2 : algR) :
  (p < n)%N -> 0 < q1 -> q1 <= q2 -> q2 < 1 ->
  t2_quantile (dof n p) q1 <= t2_quantile (dof n p) q2.
Proof. by move=> lt_pn; apply: t2_quantile_mono; apply: dof_gt0. Qed.

Lemma demo_alpha_lt_half : demo_alpha < 2^-1.
Proof. by rewrite /demo_alpha ltf_pV2 ?posrE ?ltr0n // ltr_nat. Qed.

Lemma half_level : 0 < (2^-1 : algR) < 1.
Proof. by rewrite invr_gt0 ltr0n invf_lt1 ?ltr0n // ltr1n. Qed.

Lemma square_weights_gt0 i :
  0 < weights_of (None : option 'rV[algR]_2) 0 i.
Proof. exact: unit_weights_gt0. Qed.

(** ** The fit solves the normal equations *)

Section NormalEquations.
Variable R : rcfType.
Variables n p : nat.
Implicit Types (X : 'M[R]_(n, p)) (y : 'cV[R]_n) (beta : 'cV[R]_p).
Implicit Types (weights : option 'rV[R]_n).

Lemma fit_normal_equations X y weights beta :
  normal_matrix X weights \in unitmx ->
  X^T *m diag_mx (weights_of weights) *m residuals X y beta = 0 ->
  fit X y weights = Ok beta.
Proof.
move=> A_unit; rewrite /residuals mulmxBr !mulmxA -/(normal_matrix X weights).
move/eqP; rewrite subr_eq0 => /eqP XWy.
rewrite /fit np_linalg_inv_unit //=; congr Ok.
by rewrite -2!mulmxA [X^T *m _]mulmxA XWy mulKmx.
Qed.
End NormalEquations.

(** ** The coefficients of the worked instances are their least-squares fits *)

Lemma demo_fit : fit demo_x_design demo_y None = Ok demo_coef.
Proof.
have [_ _ A_unit] := fittedP demo_fitted.
apply: fit_normal_equations => //=.
rewrite diag_mx_ones mulmx1 /demo_x_design /demo_coef -residuals_univariateE.
rewrite /add_constant tr_row_mx mul_col_mx.
apply/matrixP => l j; rewrite ord1 [RHS]mxE.
case: (splitP l) => [l0 l_eq|l1 l_eq].
  have -> : l = lshift 1 0 by apply/val_inj; rewrite /= l_eq ord1.
  by rewrite col_mxEu mxE !big_ord_recl big_ord0 !mxE /= /bump /=; lra.
have -> : l = rshift 1 0 by apply/val_inj; rewrite /= l_eq ord1.
by rewrite col_mxEd mxE !big_ord_recl big_ord0 !mxE /= /bump /=; lra.
Qed.


Lemma line_fit : fit demo_x_design line_y None = Ok line_coef.
Proof.
have [_ _ A_unit] := fittedP demo_fitted.
by apply: fit_normal_equations; rewrite // line_residuals mulmx0.
Qed.


(** ** The numbers of the four-point instance

    Residuals -0.1, 0.8, -1.3, 0.6; residual variance 1.35; leverage 4.3 at
    x = 6. *)

Section Solve.
Variable R : rcfType.
Variables n p : nat.

Lemma leverage_solve (X : 'M[R]_(n, p)) (weights : option 'rV[R]_n)
    (q z : 'cV[R]_p) :
  normal_matrix X weights \in unitmx ->
  X^T *m diag_mx (weights_of weights) *m (X *m z) = q ->
  leverage X weights q = (q^T *m z) 0 0.
Proof.
move=> A_unit Az; rewrite /leverage -mulmxA; congr ((_ *m _) 0 0).
have -> : q = normal_matrix X weights *m z.
  by rewrite -Az /normal_matrix mulmxA.
by rewrite mulKmx.
Qed.
End Solve.

Lemma sum4 (f : 'I_4 -> algR) :
  \sum_i f i = f ord0 + f (inord 1) + f (inord 2) + f (inord 3).
Proof.
rewrite !big_ord_recl big_ord0 addr0 !addrA.
by congr (f _ + f _ + f _ + f _); apply/val_inj; rewrite /= ?inordK.
Qed.

Example demo_residuals i :
  residuals demo_x_design demo_y demo_coef i 0
  = nth 0 [:: - (1%:R / 10%:R); 8%:R / 10%:R; - (13%:R / 10%:R);
              6%:R / 10%:R] i.
Proof.
rewrite /demo_x_design /demo_coef -residuals_univariateE !mxE.
by case: i => [[|[|[|[|i]]]]] //= lt_i; lra.
Qed.

Example demo_residual_variance :
  residual_variance 2 None (residuals demo_x_design demo_y demo_coef)
  = 27%:R / 20%:R.
Proof.
rewrite residual_variance_unweighted sum4 !demo_residuals /= !inordK //=.
by field.
Qed.

Example demo_leverage : leverage demo_x_design None demo_q = 43%:R / 10%:R.
Proof.
have [_ _ A_unit] := fittedP demo_fitted.
pose z : 'cV[algR]_(1 + 1) := coef_col (- (11%:R / 10%:R)) (9%:R / 10%:R).
have [z0 z1] := coef_colE (- (11%:R / 10%:R) : algR) (9%:R / 10%:R).
have Az : demo_x_design^T *m diag_mx (weights_of None) *m (demo_x_design *m z)
          = demo_q.
  rewrite /= diag_mx_ones mulmx1 /demo_x_design /add_constant tr_row_mx.
  rewrite mul_col_mx /demo_q /x_to_predict_col_vec.
  congr (col_mx _ _); apply/matrixP => i j; rewrite !ord1 mxE sum4.
    rewrite -!/(add_constant _) !add_constant_mul /z z0 z1.
    by rewrite !mxE /= !inordK //=; field.
  rewrite -!/(add_constant _) !add_constant_mul /z z0 z1.
  by rewrite !mxE /= !inordK //=; field.
rewrite (leverage_solve A_unit Az) -/(y_estimated demo_q z).
rewrite /demo_q /z -y_estimated_univariateE /y_estimated_univariate.
by field.
Qed.

Example demo_confidence_half_width :
  one_sided_CL_magnitude (@t2_quantile algR) demo_alpha demo_x_design None
    (residuals demo_x_design demo_y demo_coef) demo_q
  = Ok (Finite (t2_quantile 2 (1 - demo_alpha / 2)
                * Num.sqrt (27%:R / 20%:R * (43%:R / 10%:R)))).
Proof.
rewrite CL_fittedE ?demo_fitted ?demo_alpha_level //.
by rewrite demo_residual_variance demo_leverage.
Qed.

(** * The claims *)

(** C1.  On a fitted model (more observations than parameters, positive
    weights, invertible normal matrix) and for a significance level in
    (0, 1), the confidence half-width computed by the cell, with or without
    weights, is the real number t * sqrt(s^2 * h): h the leverage
    query^T (X^T W X)^-1 query, s^2 the residual variance and t the Student-t
    quantile with n - p degrees of freedom at 1 - significance / 2. *)
Theorem confidence_half_width (R : rcfType) (t_quantile : int -> R -> R)
    (n p : nat) (X : 'M[R]_(n, p)) (weights : option 'rV[R]_n)
    (y : 'cV[R]_n) (coef query : 'cV[R]_p) (significance : R) :
  fitted X weights -> 0 < significance < 1 ->
  let s2 := residual_variance p weights (residuals X y coef) in
  let h := leverage X weights query in
  let t := critical_value t_quantile n p significance in
  one_sided_CL_magnitude t_quantile significance X weights
    (residuals X y coef) query
  = Ok (Finite (t * Num.sqrt (s2 * h))).
Proof.
move=> fit_X lvl /=.
case: weights fit_X => [y_weights|] fit_X /=.
- exact: CL_weightedE.
- exact: CL_unweightedE.
Qed.

(** The confidence half-width of the four-point instance, with unit weights
    and with the weights 1, 2, 3, 4. *)
Lemma confidence_half_width_witness :
  [/\ fitted demo_x_design None, fitted demo_x_design (Some demo_weights),
      0 < demo_alpha < 1,
      one_sided_CL_magnitude (@t2_quantile algR) demo_alpha demo_x_design None
        (residuals demo_x_design demo_y demo_coef) demo_q
      = Ok (Finite (critical_value (@t2_quantile algR) 4 2 demo_alpha
                    * Num.sqrt
                        (residual_variance 2 None
                           (residuals demo_x_design demo_y demo_coef)
                         * leverage demo_x_design None demo_q)))
    & one_sided_CL_magnitude (@t2_quantile algR) demo_alpha demo_x_design
        (Some demo_weights) (residuals demo_x_design demo_y demo_coef) demo_q
      = Ok (Finite (critical_value (@t2_quantile algR) 4 2 demo_alpha
                    * Num.sqrt
                        (residual_variance 2 (Some demo_weights)
                           (residuals demo_x_design demo_y demo_coef)
                         * leverage demo_x_design (Some demo_weights)
                             demo_q)))].
Proof.
split.
- exact: demo_fitted.
- exact: demo_fitted_weighted.
- exact: demo_alpha_level.
- exact: (confidence_half_width (@t2_quantile algR) demo_y demo_coef demo_q
           demo_fitted demo_alpha_level).
- exact: (confidence_half_width (@t2_quantile algR) demo_y demo_coef demo_q
           demo_fitted_weighted demo_alpha_level).
Defined.

(** C2.  Under the same conditions the prediction half-width computed by the
    cell, with or without weights, is the real number
    t * sqrt(s^2 * (1 + h)). *)
Theorem prediction_half_width (R : rcfType) (t_quantile : int -> R -> R)
    (n p : nat) (X : 'M[R]_(n, p)) (weights : option 'rV[R]_n)
    (y : 'cV[R]_n) (coef query : 'cV[R]_p) (significance : R) :
  fitted X weights -> 0 < significance < 1 ->
  let s2 := residual_variance p weights (residuals X y coef) in
  let h := leverage X weights query in
  let t := critical_value t_quantile n p significance in
  one_sided_PL_magnitude t_quantile significance X weights
    (residuals X y coef) query
  = Ok (Finite (t * Num.sqrt (s2 * (1 + h)))).
Proof.
move=> fit_X lvl /=.
case: weights fit_X => [y_weights|] fit_X /=.
- exact: PL_weightedE.
- exact: PL_unweightedE.
Qed.

(** The prediction half-width of the four-point instance. *)
Lemma prediction_half_width_witness :
  [/\ fitted demo_x_design None, fitted demo_x_design (Some demo_weights),
      0 < demo_alpha < 1,
      one_sided_PL_magnitude (@t2_quantile algR) demo_alpha demo_x_design None
        (residuals demo_x_design demo_y demo_coef) demo_q
      = Ok (Finite (critical_value (@t2_quantile algR) 4 2 demo_alpha
                    * Num.sqrt
                        (residual_variance 2 None
                           (residuals demo_x_design demo_y demo_coef)
                         * (1 + leverage demo_x_design None demo_q))))
    & one_sided_PL_magnitude (@t2_quantile algR) demo_alpha demo_x_design
        (Some demo_weights) (residuals demo_x_design demo_y demo_coef) demo_q
      = Ok (Finite (critical_value (@t2_quantile algR) 4 2 demo_alpha
                    * Num.sqrt
                        (residual_variance 2 (Some demo_weights)
                           (residuals demo_x_design demo_y demo_coef)
                         * (1 + leverage demo_x_design (Some demo_weights)
                                  demo_q))))].
Proof.
split.
- exact: demo_fitted.
- exact: demo_fitted_weighted.
- exact: demo_alpha_level.
- exact: (prediction_half_width (@t2_quantile algR) demo_y demo_coef demo_q
           demo_fitted demo_alpha_level).
- exact: (prediction_half_width (@t2_quantile algR) demo_y demo_coef demo_q
           demo_fitted_weighted demo_alpha_level).
Defined.

(** C3.  With n > p and r = y - X beta: the unweighted cell yields a
    non-negative real [s_value] whose square is the squared 2-norm of r
    over n - p, and the weighted cell yields the real number
    sum_i w_i r_i^2 / (n - p). *)
Theorem residual_variance_estimate (R : rcfType) (n p : nat)
    (X : 'M[R]_(n, p)) (y : 'cV[R]_n) (beta : 'cV[R]_p)
    (y_weights : 'rV[R]_n) :
  (p < n)%N ->
  let r := residuals X y beta in
  (exists s : R,
     [/\ Unweighted.s_value p r = Finite s, 0 <= s
       & s ^+ 2 = (\sum_i r i 0 ^+ 2) / (n%:R - p%:R)])
  /\ Weighted.s_squared_value p y_weights r
     = Finite ((\sum_i y_weights 0 i * r i 0 ^+ 2) / (n%:R - p%:R)).
Proof.
move=> lt_pn r; split; last by rewrite s_squared_valueE.
have s2_ge0 : 0 <= residual_variance p None r.
  by apply: residual_variance_ge0 => // i; rewrite /= mxE ler01.
exists (Num.sqrt (residual_variance p None r)).
rewrite s_valueE // sqrtr_ge0; split=> //.
by rewrite sqr_sqrtr // residual_variance_unweighted.
Qed.

(** The variance estimates of the four-point instance. *)
Lemma residual_variance_estimate_witness :
  (2 < 4)%N
  /\ ((exists s : algR,
         [/\ Unweighted.s_value 2 (residuals demo_x_design demo_y demo_coef)
             = Finite s, 0 <= s
           & s ^+ 2
             = (\sum_i residuals demo_x_design demo_y demo_coef i 0 ^+ 2)
               / (4%:R - 2%:R)])
      /\ Weighted.s_squared_value 2 demo_weights
           (residuals demo_x_design demo_y demo_coef)
         = Finite ((\sum_i demo_weights 0 i
                      * residuals demo_x_design demo_y demo_coef i 0 ^+ 2)
                   / (4%:R - 2%:R))).
Proof.
split; first by [].
exact: (@residual_variance_estimate algR 4 2 demo_x_design demo_y demo_coef
          demo_weights isT).
Defined.

(** C4, as stated, fails.  The observations y = x at x = 0, 1, 2, 3 are
    fitted exactly by intercept 0 and slope 1; the residuals vanish, the
    confidence and the prediction half-width at x = 6 are both 0, and the
    second is not strictly greater than the first. *)
Lemma exact_fit_equal_half_widths :
  fit demo_x_design line_y None = Ok line_coef /\
  fitted demo_x_design None /\ 0 < demo_alpha < 1 /\
  exists cl pl : algR,
    [/\ one_sided_CL_magnitude (@t2_quantile algR) demo_alpha demo_x_design
          None (residuals demo_x_design line_y line_coef) demo_q
        = Ok (Finite cl),
        one_sided_PL_magnitude (@t2_quantile algR) demo_alpha demo_x_design
          None (residuals demo_x_design line_y line_coef) demo_q
        = Ok (Finite pl),
        cl = 0, pl = 0
      & ~~ (cl < pl)].
Proof.
split; first exact: line_fit.
split; first exact: demo_fitted.
split; first exact: demo_alpha_level.
exists 0, 0; rewrite ltxx; split=> //.
- rewrite CL_fittedE ?demo_fitted ?demo_alpha_level // line_residuals.
  rewrite /residual_variance big1 ?mul0r ?sqrtr0 ?mulr0 // => i _.
  by rewrite [in X in _ * X]mxE expr0n mulr0.
- rewrite PL_fittedE ?demo_fitted ?demo_alpha_level // line_residuals.
  rewrite /residual_variance big1 ?mul0r ?sqrtr0 ?mulr0 // => i _.
  by rewrite [in X in _ * X]mxE expr0n mulr0.
Qed.

(** C4, amended.  On a fitted model, for a significance level in (0, 1) and
    a quantile function that is positive above the median, both half-widths
    are real numbers, the prediction half-width is at least the confidence
    half-width, and it is strictly greater exactly when the residual
    variance s^2 is positive. *)
Theorem prediction_at_least_confidence (R : rcfType)
    (t_quantile : int -> R -> R) (n p : nat) (X : 'M[R]_(n, p))
    (weights : option 'rV[R]_n) (y : 'cV[R]_n) (coef query : 'cV[R]_p)
    (significance : R) :
  (forall q : R, 2^-1 < q < 1 -> 0 < t_quantile (dof n p) q) ->
  fitted X weights -> 0 < significance < 1 ->
  exists cl pl : R,
    [/\ one_sided_CL_magnitude t_quantile significance X weights
          (residuals X y coef) query = Ok (Finite cl),
        one_sided_PL_magnitude t_quantile significance X weights
          (residuals X y coef) query = Ok (Finite pl),
        cl <= pl
      & (cl < pl) = (0 < residual_variance p weights (residuals X y coef))].
Proof.
move=> t_gt0 fit_X lvl.
have [cl [pl [cl_eq pl_eq _ le_cl_pl lt_cl_pl]]] :=
  half_widths_ordered t_gt0 (residuals X y coef) query fit_X lvl.
by exists cl, pl.
Qed.

(** The two half-widths of the weighted four-point instance, compared. *)
Lemma prediction_at_least_confidence_witness :
  [/\ forall q : algR, 2^-1 < q < 1 -> 0 < t2_quantile (dof 4 2) q,
      fitted demo_x_design (Some demo_weights), 0 < demo_alpha < 1
    & exists cl pl : algR,
        [/\ one_sided_CL_magnitude (@t2_quantile algR) demo_alpha
              demo_x_design (Some demo_weights)
              (residuals demo_x_design demo_y demo_coef) demo_q
            = Ok (Finite cl),
            one_sided_PL_magnitude (@t2_quantile algR) demo_alpha
              demo_x_design (Some demo_weights)
              (residuals demo_x_design demo_y demo_coef) demo_q
            = Ok (Finite pl),
            cl <= pl
          & (cl < pl)
            = (0 < residual_variance 2 (Some demo_weights)
                     (residuals demo_x_design demo_y demo_coef))]].
Proof.
have t_gt0 : forall q : algR, 2^-1 < q < 1 -> 0 < t2_quantile (dof 4 2) q.
  by move=> q; apply: t2_quantile_gt0.
split.
- exact: t_gt0.
- exact: demo_fitted_weighted.
- exact: demo_alpha_level.
- exact: (prediction_at_least_confidence demo_y demo_coef demo_q t_gt0
           demo_fitted_weighted demo_alpha_level).
Defined.

(** C5.  A weight vector whose entries all equal one positive constant c
    gives the same coefficients as no weights: the same vector when the
    normal matrix is invertible, the same [LinAlgError] when it is not. *)
Theorem coefficients_scale_invariant (R : rcfType) (n p : nat)
    (X : 'M[R]_(n, p)) (y : 'cV[R]_n) (c : R) :
  0 < c -> fit X y (Some (const_mx c)) = fit X y None.
Proof.
move=> c_gt0; have c_neq0 : c != 0 by rewrite gt_eqF.
have AE : normal_matrix X (Some (const_mx c)) = c *: normal_matrix X None.
  rewrite /normal_matrix /= !diag_const_mx mulmx1.
  by rewrite -mulmxA mul_scalar_mx -scalemxAr.
rewrite /fit AE /np_linalg_inv unitmxZ ?unitfE //.
case: ifP => //= A_unit; congr Ok.
rewrite invmxZ ?unitmxZ ?unitfE // !diag_const_mx mulmx1.
rewrite -!mulmxA mul_scalar_mx -scalemxAl -2!scalemxAr scalerA.
by rewrite mulVf // scale1r.
Qed.

(** The four-point instance with every weight equal to 3. *)
Lemma coefficients_scale_invariant_witness :
  0 < (3%:R : algR)
  /\ fit demo_x_design demo_y (Some (const_mx 3%:R))
     = fit demo_x_design demo_y None.
Proof.
have c_gt0 : 0 < (3%:R : algR) by rewrite ltr0n.
split; first exact: c_gt0.
exact: (coefficients_scale_invariant demo_x_design demo_y c_gt0).
Defined.




(** C7.  On a fitted model, for significance levels a < b in (0, 1) and a
    quantile function that is monotone in its level, the confidence and the
    prediction half-width at a are at least those at b. *)
Theorem half_widths_grow_as_significance_falls (R : rcfType)
    (t_quantile : int -> R -> R) (n p : nat) (X : 'M[R]_(n, p))
    (weights : option 'rV[R]_n) (y : 'cV[R]_n) (coef query : 'cV[R]_p)
    (a b : R) :
  (forall q1 q2 : R, 0 < q1 -> q1 <= q2 -> q2 < 1 ->
     t_quantile (dof n p) q1 <= t_quantile (dof n p) q2) ->
  fitted X weights -> 0 < a -> a < b -> b < 1 ->
  exists cl_a cl_b pl_a pl_b : R,
    [/\ one_sided_CL_magnitude t_quantile a X weights (residuals X y coef)
          query = Ok (Finite cl_a) /\
        one_sided_CL_magnitude t_quantile b X weights (residuals X y coef)
          query = Ok (Finite cl_b),
        one_sided_PL_magnitude t_quantile a X weights (residuals X y coef)
          query = Ok (Finite pl_a) /\
        one_sided_PL_magnitude t_quantile b X weights (residuals X y coef)
          query = Ok (Finite pl_b),
        cl_b <= cl_a
      & pl_b <= pl_a].
Proof.
move=> t_mono fit_X a_gt0 lt_ab b_lt1.
have lvl_a : 0 < a < 1 by rewrite a_gt0 (lt_trans lt_ab).
have lvl_b : 0 < b < 1 by rewrite (lt_trans a_gt0).
have le_t := critical_value_anti t_mono a_gt0 (ltW lt_ab) b_lt1.
rewrite !CL_fittedE // !PL_fittedE //.
do 4![eexists]; split; [by split | by split | |].
- by rewrite ler_wpM2r ?sqrtr_ge0.
- by rewrite ler_wpM2r ?sqrtr_ge0.
Qed.

(** The four-point instance at the significance levels 0.05 and 0.5. *)
Lemma half_widths_grow_witness :
  [/\ forall q1 q2 : algR, 0 < q1 -> q1 <= q2 -> q2 < 1 ->
        t2_quantile (dof 4 2) q1 <= t2_quantile (dof 4 2) q2,
      fitted demo_x_design None,
      [/\ 0 < demo_alpha, demo_alpha < 2^-1 & (2^-1 : algR) < 1]
    & exists cl_a cl_b pl_a pl_b : algR,
        [/\ one_sided_CL_magnitude (@t2_quantile algR) demo_alpha
              demo_x_design None (residuals demo_x_design demo_y demo_coef)
              demo_q = Ok (Finite cl_a) /\
            one_sided_CL_magnitude (@t2_quantile algR) 2^-1
              demo_x_design None (residuals demo_x_design demo_y demo_coef)
              demo_q = Ok (Finite cl_b),
            one_sided_PL_magnitude (@t2_quantile algR) demo_alpha
              demo_x_design None (residuals demo_x_design demo_y demo_coef)
              demo_q = Ok (Finite pl_a) /\
            one_sided_PL_magnitude (@t2_quantile algR) 2^-1
              demo_x_design None (residuals demo_x_design demo_y demo_coef)
              demo_q = Ok (Finite pl_b),
            cl_b <= cl_a
          & pl_b <= pl_a]].
Proof.
have t_mono (q1 q2 : algR) := @t2_quantile_mono_at 4 2 q1 q2 isT.
have [a_gt0 _] := andP demo_alpha_level.
have [_ half_lt1] := andP half_level.
split.
- exact: t_mono.
- exact: demo_fitted.
- by split; [exact: a_gt0 | exact: demo_alpha_lt_half | exact: half_lt1].
- exact: (half_widths_grow_as_significance_falls demo_y demo_coef demo_q
           t_mono demo_fitted a_gt0 demo_alpha_lt_half half_lt1).
Defined.

(** C8.  The design matrix has an all-ones column 0 and the predictor
    columns, in the order given, as its columns 1 .. p - 1: for the matrix of
    ones whose columns are then assigned one by one (any number of
    predictors, and the three of the multivariate cell), and for
    [add_constant]. *)
Theorem design_matrix_columns (R : rcfType) (n k : nat)
    (predictors : 'M[R]_(n, k)) (c1 c2 c3 : 'cV[R]_n) :
  [/\ forall i, build predictors i 0 = 1,
      forall i j, build predictors i (rshift 1 j) = predictors i j,
      forall i, add_constant predictors i 0 = 1,
      forall i j, add_constant predictors i (rshift 1 j) = predictors i j
    & forall i,
        [/\ x_design_multivariate c1 c2 c3 i (inord 0) = 1,
            x_design_multivariate c1 c2 c3 i (inord 1) = c1 i 0,
            x_design_multivariate c1 c2 c3 i (inord 2) = c2 i 0
          & x_design_multivariate c1 c2 c3 i (inord 3) = c3 i 0]].
Proof.
split=> [i|i j|i|i j|i].
- by rewrite build_add_constant add_constant_col0.
- by rewrite build_add_constant add_constant_colS.
- exact: add_constant_col0.
- exact: add_constant_colS.
- exact: x_design_multivariateE.
Qed.

(** C9.  On a fitted model without weights and for a significance level in
    (0, 1), the cells that compute by hand and the cells that read the
    statsmodels prediction give the same point estimate, the same confidence
    half-width and the same prediction half-width. *)
Theorem manual_path_matches_statsmodels (R : rcfType)
    (t_quantile : int -> R -> R) (n p : nat) (X : 'M[R]_(n, p))
    (y : 'cV[R]_n) (query : 'cV[R]_p) (alpha : R) :
  fitted X None -> 0 < alpha < 1 ->
  exists (point cl pl : R) (prediction : Statsmodels.summary_frame R),
    [/\ manual_intervals t_quantile alpha X y query
        = Ok (point, Finite cl, Finite pl),
        Statsmodels.get_prediction t_quantile alpha X y query = Ok prediction,
        Statsmodels.y_estimated prediction = point,
        Statsmodels.one_sided_CL_magnitude prediction = cl
      & Statsmodels.one_sided_PL_magnitude prediction = pl].
Proof.
move=> fit_X lvl; have [_ _ A_unit] := fittedP fit_X.
rewrite /manual_intervals /Statsmodels.get_prediction /fit.
rewrite np_linalg_inv_unit //= CL_unweightedE // PL_unweightedE //=.
do 4![eexists]; split; [by [] | by [] | by [] | |].
- by rewrite /Statsmodels.one_sided_CL_magnitude /= addrC addKr.
- by rewrite /Statsmodels.one_sided_PL_magnitude /= addrC addKr.
Qed.

(** Both paths on the four-point instance. *)
Lemma manual_path_matches_statsmodels_witness :
  [/\ fitted demo_x_design None, 0 < demo_alpha < 1
    & exists (point cl pl : algR)
             (prediction : Statsmodels.summary_frame algR),
        [/\ manual_intervals (@t2_quantile algR) demo_alpha demo_x_design
              demo_y demo_q
            = Ok (point, Finite cl, Finite pl),
            Statsmodels.get_prediction (@t2_quantile algR) demo_alpha
              demo_x_design demo_y demo_q = Ok prediction,
            Statsmodels.y_estimated prediction = point,
            Statsmodels.one_sided_CL_magnitude prediction = cl
          & Statsmodels.one_sided_PL_magnitude prediction = pl]].
Proof.
split.
- exact: demo_fitted.
- exact: demo_alpha_level.
- exact: (manual_path_matches_statsmodels (@t2_quantile algR) demo_y demo_q
           demo_fitted demo_alpha_level).
Defined.

(** C10, as stated, fails.  The two-point instance has positive weights and
    an invertible normal matrix, yet its confidence half-width at
    significance 0.05 is not a real number: n - p = 0. *)
Lemma square_design_half_width_not_a_number :
  [/\ forall i, 0 < weights_of (None : option 'rV[algR]_2) 0 i,
      normal_matrix square_x_design None \in unitmx,
      0 < demo_alpha < 1
    & ~~ well_defined
           (one_sided_CL_magnitude (@t2_quantile algR) demo_alpha
              square_x_design None
              (residuals square_x_design square_y square_coef) demo_q)].
Proof.
split.
- exact: square_weights_gt0.
- exact: (square_unit square_weights_gt0).
- exact: demo_alpha_level.
- have [-> _] := half_widths_degenerate (@t2_quantile algR) demo_alpha
    (residuals square_x_design square_y square_coef) demo_q (leqnn 2)
    (square_unit square_weights_gt0).
  by [].
Qed.

(** C10, amended.  With strictly positive weights and an invertible normal
    matrix the leverage of every query vector is non-negative.  If moreover
    n > p, then for every significance level in (0, 1) and a quantile
    function that is positive above the median, the arguments of the square
    roots are non-negative and both half-widths are non-negative real
    numbers. *)
Theorem half_widths_well_defined (R : rcfType) (t_quantile : int -> R -> R)
    (n p : nat) (X : 'M[R]_(n, p)) (weights : option 'rV[R]_n) :
  (forall q : R, 2^-1 < q < 1 -> 0 < t_quantile (dof n p) q) ->
  (forall i, 0 < weights_of weights 0 i) ->
  normal_matrix X weights \in unitmx ->
  (forall query : 'cV[R]_p, 0 <= leverage X weights query)
  /\ ((p < n)%N ->
      forall (r : 'cV[R]_n) (query : 'cV[R]_p) (significance : R),
      0 < significance < 1 ->
      let s2 := residual_variance p weights r in
      let h := leverage X weights query in
      [/\ 0 <= s2 * h, 0 <= s2 * (1 + h)
        & exists cl pl : R,
            [/\ one_sided_CL_magnitude t_quantile significance X weights r
                  query = Ok (Finite cl),
                one_sided_PL_magnitude t_quantile significance X weights r
                  query = Ok (Finite pl),
                0 <= cl
              & 0 <= pl]]).
Proof.
move=> t_gt0 w_gt0 A_unit; have w_ge0 := weights_ge0 w_gt0.
split=> [query|lt_pn r query significance lvl /=].
  exact: (leverage_ge0 query).
have fit_X : fitted X weights by apply/and3P; split=> //; apply/forallP.
have s2_ge0 := residual_variance_ge0 r lt_pn w_ge0.
have h_ge0 := leverage_ge0 query w_ge0 A_unit.
split; [exact: mulr_ge0 | by apply: mulr_ge0 => //; apply: addr_ge0 |].
have [cl [pl [cl_eq pl_eq cl_ge0 le_cl_pl _]]] :=
  half_widths_ordered t_gt0 r query fit_X lvl.
by exists cl, pl; split=> //; exact: le_trans cl_ge0 le_cl_pl.
Qed.

(** The weighted four-point instance. *)
Lemma half_widths_well_defined_witness :
  [/\ forall q : algR, 2^-1 < q < 1 -> 0 < t2_quantile (dof 4 2) q,
      forall i, 0 < weights_of (Some demo_weights) 0 i,
      normal_matrix demo_x_design (Some demo_weights) \in unitmx,
      (2 < 4)%N /\ 0 < demo_alpha < 1
    & 0 <= leverage demo_x_design (Some demo_weights) demo_q
      /\ exists cl pl : algR,
           [/\ one_sided_CL_magnitude (@t2_quantile algR) demo_alpha
                 demo_x_design (Some demo_weights)
                 (residuals demo_x_design demo_y demo_coef) demo_q
               = Ok (Finite cl),
               one_sided_PL_magnitude (@t2_quantile algR) demo_alpha
                 demo_x_design (Some demo_weights)
                 (residuals demo_x_design demo_y demo_coef) demo_q
               = Ok (Finite pl),
               0 <= cl
             & 0 <= pl]].
Proof.
have t_gt0 : forall q : algR, 2^-1 < q < 1 -> 0 < t2_quantile (dof 4 2) q.
  by move=> q; apply: t2_quantile_gt0.
have [_ _ A_unit] := fittedP demo_fitted_weighted.
have [h_ge0 widths] :=
  half_widths_well_defined t_gt0 demo_weights_gt0 A_unit.
have [_ _ ex_widths] :=
  widths isT (residuals demo_x_design demo_y demo_coef) demo_q demo_alpha
    demo_alpha_level.
split.
- exact: t_gt0.
- exact: demo_weights_gt0.
- exact: A_unit.
- by split; [| exact: demo_alpha_level].
- by split; [exact: h_ge0 | exact: ex_widths].
Defined.

(** * Further properties of the cells *)

(** ** When the cells return numbers *)

Section Finiteness.
Variable R : rcfType.
Variable t_quantile : int -> R -> R.
Variables n p : nat.
Implicit Types (X : 'M[R]_(n, p)) (w : 'rV[R]_n) (r : 'cV[R]_n).
Implicit Types (q : 'cV[R]_p) (alpha : R) (weights : option 'rV[R]_n).


Lemma upper_tail_levelE alpha : (0 < 1 - alpha / 2 < 1) = (0 < alpha < 2).
Proof.
apply/andP/andP => -[lo hi]; split; lra.
Qed.



Lemma np_mulA_finite (T : np_float R) (a b : R) :
  T *f Finite a *f Finite b = T *f Finite (a * b).
Proof. by case: T => [c|] //=; rewrite mulrA. Qed.

Lemma dofR_lt0 : (n < p)%N -> (dof n p)%:~R < 0 :> R.
Proof. by move=> lt_np; rewrite ltrz0 /dof subr_lt0 ltz_nat. Qed.

Lemma s_value_short r : (n < p)%N -> Unweighted.s_value p r = NonFinite.
Proof.
move=> lt_np; rewrite /Unweighted.s_value /np_sqrt.
by rewrite leNgt dofR_lt0.
Qed.

Lemma CL_shape alpha X weights r q :
  (p < n)%N -> (forall i, 0 <= weights_of weights 0 i) ->
  normal_matrix X weights \in unitmx ->
  one_sided_CL_magnitude t_quantile alpha X weights r q
  = Ok (stats_t_ppf t_quantile (1 - alpha / 2) (dof n p)
        *f Finite (Num.sqrt (residual_variance p weights r
                             * leverage X weights q))).
Proof.
move=> lt_pn w_ge0 A_unit.
have s2_ge0 := residual_variance_ge0 r lt_pn w_ge0.
have h_ge0 := leverage_ge0 q w_ge0 A_unit.
case: weights => [w|] /= in w_ge0 A_unit s2_ge0 h_ge0 *.
  rewrite /Weighted.one_sided_CL_magnitude inner_sqrt_term_wE //=.
  by rewrite s_squared_valueE //= mulr_ge0.
rewrite /Unweighted.one_sided_CL_magnitude inner_sqrt_termE //=.
by rewrite s_valueE // h_ge0 np_mulA_finite -sqrtrM.
Qed.

Lemma PL_shape alpha X weights r q :
  (p < n)%N -> (forall i, 0 <= weights_of weights 0 i) ->
  normal_matrix X weights \in unitmx ->
  one_sided_PL_magnitude t_quantile alpha X weights r q
  = Ok (stats_t_ppf t_quantile (1 - alpha / 2) (dof n p)
        *f Finite (Num.sqrt (residual_variance p weights r
                             * (1 + leverage X weights q)))).
Proof.
move=> lt_pn w_ge0 A_unit.
have s2_ge0 := residual_variance_ge0 r lt_pn w_ge0.
have h_ge0 := leverage_ge0 q w_ge0 A_unit.
have h1_ge0 : 0 <= 1 + leverage X weights q by rewrite addr_ge0.
case: weights => [w|] /= in w_ge0 A_unit s2_ge0 h_ge0 h1_ge0 *.
  rewrite /Weighted.one_sided_PL_magnitude inner_sqrt_term_wE //=.
  rewrite s_squared_valueE //=; set s2 := residual_variance _ _ _.
  have -> : s2 + s2 * leverage X (Some w) q = s2 * (1 + leverage X (Some w) q).
    by rewrite mulrDr mulr1.
  by rewrite mulr_ge0.
rewrite /Unweighted.one_sided_PL_magnitude inner_sqrt_termE //=.
by rewrite s_valueE // h1_ge0 np_mulA_finite -sqrtrM.
Qed.

End Finiteness.

(** ** Rescaling the weights *)

Section Scaling.
Variable R : rcfType.
Variable t_quantile : int -> R -> R.
Variables n p : nat.
Implicit Types (X : 'M[R]_(n, p)) (w : 'rV[R]_n) (r : 'cV[R]_n).
Implicit Types (q : 'cV[R]_p) (alpha c : R).

Lemma normal_matrix_ones X :
  normal_matrix X (Some (const_mx 1)) = normal_matrix X None.
Proof. by []. Qed.

Lemma normal_matrixZ X w c :
  normal_matrix X (Some (c *: w)) = c *: normal_matrix X (Some w).
Proof.
rewrite /normal_matrix /= linearZ /= -scalemxAr -scalemxAl.
by [].
Qed.

Lemma leverageZ X w q c :
  c != 0 -> normal_matrix X (Some w) \in unitmx ->
  leverage X (Some (c *: w)) q = c^-1 * leverage X (Some w) q.
Proof.
move=> c_neq0 A_unit; rewrite /leverage normal_matrixZ.
rewrite invmxZ ?unitmxZ ?unitfE // -scalemxAr -scalemxAl mxE.
by [].
Qed.

Lemma sum_wsqrZ w r c :
  \sum_i (c *: w) 0 i * r i 0 ^+ 2 = c * \sum_i w 0 i * r i 0 ^+ 2.
Proof. by rewrite mulr_sumr; apply: eq_bigr => i _; rewrite mxE mulrA. Qed.


Lemma residual_varianceZ w r c :
  residual_variance p (Some (c *: w)) r = c * residual_variance p (Some w) r.
Proof. by rewrite /residual_variance /= sum_wsqrZ mulrA. Qed.

Lemma fittedZ X w c : 0 < c -> fitted X (Some w) -> fitted X (Some (c *: w)).
Proof.
move=> c_gt0 /fittedP[lt_pn w_gt0 A_unit]; apply/and3P; split=> //.
  by apply/forallP => i; rewrite /= mxE mulr_gt0 // (w_gt0 i).
by rewrite normal_matrixZ unitmxZ // unitfE gt_eqF.
Qed.

Lemma t_ppf_level alpha :
  (p < n)%N -> 0 < alpha < 2 ->
  stats_t_ppf t_quantile (1 - alpha / 2) (dof n p)
  = Finite (critical_value t_quantile n p alpha).
Proof.
move=> lt_pn lvl; rewrite /stats_t_ppf dof_gt0 //=.
by rewrite upper_tail_levelE lvl.
Qed.

End Scaling.

(** ** The leverage as a quadratic form *)

Section Bounds.
Variable R : rcfType.
Variables n p : nat.
Implicit Types (X : 'M[R]_(n, p)) (r : 'cV[R]_n) (q : 'cV[R]_p).
Implicit Types (weights : option 'rV[R]_n).






End Bounds.

(** ** What a computed inner term says about the normal matrix *)

Section Inversion.
Variable R : rcfType.
Variables n p : nat.
Implicit Types (X : 'M[R]_(n, p)) (q : 'cV[R]_p) (w : 'rV[R]_n) (h : R).



End Inversion.

(** ** Further facts about the worked instances *)

Lemma t2_quantile_lt0 (R : rcfType) (df : int) (q : R) :
  0 < q < 2^-1 -> t2_quantile df q < 0.
Proof.
case/andP => q_gt0 q_lt; rewrite /t2_quantile.
have s_gt0 : 0 < (Num.sqrt (2 * q * (1 - q)))^-1.
  by rewrite invr_gt0 sqrtr_gt0; nra.
by rewrite (pmulr_llt0 _ s_gt0); lra.
Qed.



Lemma beyond_level : 1 < (3%:R / 2%:R : algR) < 2.
Proof. by apply/andP; split; lra. Qed.

Lemma three_neq0 : (3%:R : algR) != 0.
Proof. by rewrite pnatr_eq0. Qed.

Lemma three_gt0 : 0 < (3%:R : algR).
Proof. by rewrite ltr0n. Qed.

Lemma short_weights_ge0 (i : 'I_1) : 0 <= (const_mx 2%:R : 'rV[algR]_1) 0 i.
Proof. by rewrite mxE ler0n. Qed.

(** ** When the variance estimates are numbers *)

(** X1.  [s_value] is a real number exactly when there are more
    observations than parameters: it is NaN when n < p (square root of a
    negative number) and not finite when n = p (division by zero). *)
Theorem s_value_finite_iff (R : rcfType) (n p : nat) (r : 'cV[R]_n) :
  is_finite (Unweighted.s_value p r) = (p < n)%N.
Proof.
have [lt_pn|] := ltnP p n; first by rewrite s_valueE.
rewrite leq_eqVlt => /predU1P[eq_np|lt_np].
  by rewrite s_value_degenerate.
by rewrite s_value_short.
Qed.

(** X2.  [s_squared_value] is a real number exactly when n differs from p;
    unlike [s_value] it is a number when n < p, and then, the weights being
    non-negative, a non-positive one. *)
Theorem s_squared_value_finite_iff (R : rcfType) (n p : nat)
    (y_weights : 'rV[R]_n) (r : 'cV[R]_n) :
  is_finite (Weighted.s_squared_value p y_weights r) = (n != p)
  /\ ((n < p)%N -> (forall i, 0 <= y_weights 0 i) ->
      exists2 v : R,
        Weighted.s_squared_value p y_weights r = Finite v & v <= 0).
Proof.
split.
  rewrite /Weighted.s_squared_value /= intr_eq0 /dof subr_eq0 eqz_nat.
  by case: eqP.
move=> lt_np w_ge0; rewrite /Weighted.s_squared_value /=.
rewrite lt_eqF ?dofR_lt0 //; eexists; first by [].
rewrite mulr_ge0_le0 ?invr_le0 ?sum_wsqr_ge0 //.
exact/ltW/dofR_lt0.
Qed.

(** One observation, two parameters, weight 2. *)
Lemma s_squared_value_finite_iff_witness :
  let r := residuals short_x_design short_y square_coef in
  [/\ (1 < 1 + 1)%N, forall i, 0 <= (const_mx 2%:R : 'rV[algR]_1) 0 i
    & exists2 v : algR,
        Weighted.s_squared_value 2 (const_mx 2%:R) r = Finite v & v <= 0].
Proof.
move=> r; split; [by [] | exact: short_weights_ge0 |].
have [_ short] := @s_squared_value_finite_iff algR 1 2 (const_mx 2%:R) r.
exact: (short isT short_weights_ge0).
Defined.



(** ** Weights *)




(** X6.  On a fitted model, multiplying every weight by c > 0 turns the
    weighted prediction half-width t sqrt(s^2 (1 + h)) into
    t sqrt(s^2 (c + h)), with s^2 and h those of the original weights: the
    prediction half-width depends on the scale of the weights. *)
Theorem prediction_half_width_weight_scale (R : rcfType)
    (t_quantile : int -> R -> R) (n p : nat) (X : 'M[R]_(n, p))
    (y_weights : 'rV[R]_n) (r : 'cV[R]_n) (query : 'cV[R]_p) (alpha c : R) :
  fitted X (Some y_weights) -> 0 < c -> 0 < alpha < 1 ->
  let s2 := residual_variance p (Some y_weights) r in
  let h := leverage X (Some y_weights) query in
  let t := critical_value t_quantile n p alpha in
  Weighted.one_sided_PL_magnitude t_quantile alpha X (c *: y_weights) r query
  = Ok (Finite (t * Num.sqrt (s2 * (c + h)))).
Proof.
move=> fit_X c_gt0 lvl /=; have [_ _ A_unit] := fittedP fit_X.
have c_neq0 : c != 0 by rewrite gt_eqF.
rewrite PL_weightedE ?fittedZ // residual_varianceZ leverageZ //.
congr (Ok (Finite (_ * Num.sqrt _))).
by rewrite [c * _]mulrC -mulrA [c * (_ + _)]mulrDr mulr1 mulrA divff // mul1r.
Qed.

(** The four-point instance with its weights tripled. *)
Lemma prediction_half_width_weight_scale_witness :
  let r := residuals demo_x_design demo_y demo_coef in
  [/\ fitted demo_x_design (Some demo_weights), 0 < (3%:R : algR),
      0 < demo_alpha < 1
    & Weighted.one_sided_PL_magnitude (@t2_quantile algR) demo_alpha
        demo_x_design (3%:R *: demo_weights) r demo_q
      = Ok (Finite (critical_value (@t2_quantile algR) 4 2 demo_alpha
                    * Num.sqrt
                        (residual_variance 2 (Some demo_weights) r
                         * (3%:R + leverage demo_x_design (Some demo_weights)
                                     demo_q))))].
Proof.
move=> r; split.
- exact: demo_fitted_weighted.
- exact: three_gt0.
- exact: demo_alpha_level.
- exact: (@prediction_half_width_weight_scale algR (@t2_quantile algR) 4 2
           demo_x_design demo_weights r demo_q demo_alpha 3%:R
           demo_fitted_weighted three_gt0 demo_alpha_level).
Defined.

(** ** The two half-widths together *)

(** X7.  On a fitted model and for a significance level in (0, 1), the
    square of the prediction half-width is the square of the confidence
    half-width plus t^2 s^2. *)
Theorem prediction_confidence_pythagoras (R : rcfType)
    (t_quantile : int -> R -> R) (n p : nat) (X : 'M[R]_(n, p))
    (weights : option 'rV[R]_n) (r : 'cV[R]_n) (query : 'cV[R]_p)
    (alpha : R) :
  fitted X weights -> 0 < alpha < 1 ->
  exists cl pl : R,
    [/\ one_sided_CL_magnitude t_quantile alpha X weights r query
        = Ok (Finite cl),
        one_sided_PL_magnitude t_quantile alpha X weights r query
        = Ok (Finite pl)
      & pl ^+ 2 = cl ^+ 2 + critical_value t_quantile n p alpha ^+ 2
                            * residual_variance p weights r].
Proof.
move=> fit_X lvl; have [lt_pn /weights_ge0 w_ge0 A_unit] := fittedP fit_X.
have s2_ge0 := residual_variance_ge0 r lt_pn w_ge0.
have h_ge0 := leverage_ge0 query w_ge0 A_unit.
rewrite CL_fittedE // PL_fittedE //; do 2![eexists]; split=> //.
have sh_ge0 := mulr_ge0 s2_ge0 h_ge0.
have sh1_ge0 := mulr_ge0 s2_ge0 (addr_ge0 ler01 h_ge0).
by rewrite !exprMn (sqr_sqrtr sh_ge0) (sqr_sqrtr sh1_ge0); ring.
Qed.

(** The four-point instance. *)
Lemma prediction_confidence_pythagoras_witness :
  let r := residuals demo_x_design demo_y demo_coef in
  [/\ fitted demo_x_design None, 0 < demo_alpha < 1
    & exists cl pl : algR,
        [/\ one_sided_CL_magnitude (@t2_quantile algR) demo_alpha
              demo_x_design None r demo_q = Ok (Finite cl),
            one_sided_PL_magnitude (@t2_quantile algR) demo_alpha
              demo_x_design None r demo_q = Ok (Finite pl)
          & pl ^+ 2
            = cl ^+ 2 + critical_value (@t2_quantile algR) 4 2 demo_alpha ^+ 2
                        * residual_variance 2 None r]].
Proof.
move=> r; split; [exact: demo_fitted | exact: demo_alpha_level |].
exact: (@prediction_confidence_pythagoras algR (@t2_quantile algR) 4 2
          demo_x_design None r demo_q demo_alpha demo_fitted
          demo_alpha_level).
Defined.

(** X8.  The cells do not reject a significance level between 1 and 2: on a
    fitted model, with a quantile function that is negative below the
    median, the confidence "magnitude" is then non-positive and the
    prediction "magnitude" is negative exactly when the residual variance is
    positive. *)
Theorem half_widths_beyond_level_one (R : rcfType)
    (t_quantile : int -> R -> R) (n p : nat) (X : 'M[R]_(n, p))
    (weights : option 'rV[R]_n) (r : 'cV[R]_n) (query : 'cV[R]_p)
    (alpha : R) :
  (forall q : R, 0 < q < 2^-1 -> t_quantile (dof n p) q < 0) ->
  fitted X weights -> 1 < alpha < 2 ->
  exists cl pl : R,
    [/\ one_sided_CL_magnitude t_quantile alpha X weights r query
        = Ok (Finite cl),
        one_sided_PL_magnitude t_quantile alpha X weights r query
        = Ok (Finite pl),
        cl <= 0
      & (pl < 0) = (0 < residual_variance p weights r)].
Proof.
move=> t_lt0 fit_X /andP[a_gt1 a_lt2].
have [lt_pn /weights_ge0 w_ge0 A_unit] := fittedP fit_X.
have lvl : 0 < alpha < 2 by rewrite a_lt2 (lt_trans ltr01 a_gt1).
have s2_ge0 := residual_variance_ge0 r lt_pn w_ge0.
have h_ge0 := leverage_ge0 query w_ge0 A_unit.
have crit_lt0 : critical_value t_quantile n p alpha < 0.
  by apply: t_lt0; apply/andP; split; lra.
rewrite CL_shape // PL_shape // t_ppf_level //=; do 2![eexists]; split=> //.
  by rewrite mulr_le0_ge0 ?sqrtr_ge0 // ltW.
rewrite nmulr_rlt0 // sqrtr_gt0.
move: s2_ge0; rewrite le_eqVlt => /predU1P[<-|s2_gt0]; first by rewrite mul0r.
by rewrite s2_gt0 mulr_gt0 // ltr_wpDr.
Qed.

(** The four-point instance at the level 1.5. *)
Lemma half_widths_beyond_level_one_witness :
  let r := residuals demo_x_design demo_y demo_coef in
  [/\ forall q : algR, 0 < q < 2^-1 -> t2_quantile (dof 4 2) q < 0,
      fitted demo_x_design None, 1 < (3%:R / 2%:R : algR) < 2
    & exists cl pl : algR,
        [/\ one_sided_CL_magnitude (@t2_quantile algR) (3%:R / 2%:R)
              demo_x_design None r demo_q = Ok (Finite cl),
            one_sided_PL_magnitude (@t2_quantile algR) (3%:R / 2%:R)
              demo_x_design None r demo_q = Ok (Finite pl),
            cl <= 0
          & (pl < 0) = (0 < residual_variance 2 None r)]].
Proof.
move=> r.
have t_lt0 : forall q : algR, 0 < q < 2^-1 -> t2_quantile (dof 4 2) q < 0.
  by move=> q; apply: t2_quantile_lt0.
split; [exact: t_lt0 | exact: demo_fitted | exact: beyond_level |].
exact: (@half_widths_beyond_level_one algR (@t2_quantile algR) 4 2
          demo_x_design None r demo_q (3%:R / 2%:R) t_lt0 demo_fitted
          beyond_level).
Defined.

(** ** Bounds on the leverage *)





(** ** The data-generation cells and the model function *)

(** X11.  [univariate_linear_function] fails exactly on a parameter sequence
    shorter than two (Python's IndexError), ignores every parameter after
    the second, and otherwise returns, at each entry of [x], the point
    estimate of the cells at the query (1, x) with the coefficients
    (params[0], params[1]): the model handed to the orthogonal-distance
    regression is the line the other cells fit, intercept first. *)
Theorem univariate_linear_function_spec (R : rcfType) (n : nat)
    (x : 'rV[R]_n) :
  (forall params : seq R,
      (univariate_linear_function params x == None) = (size params < 2)%N)
  /\ (forall (params0 params1 : R) (rest : seq R),
        univariate_linear_function [:: params0, params1 & rest] x
        = Some (\row_i y_estimated (x_to_predict_col_vec (x 0 i))
                         (coef_col params0 params1))).
Proof.
split; first by case=> [|a [|b l]].
move=> a b l; congr Some; apply/matrixP => i j; rewrite ord1 !mxE.
by rewrite -y_estimated_univariateE /y_estimated_univariate addrC mulrC.
Qed.

(** X12.  The residuals of the generated multivariate observations at the
    coefficients they were generated with are exactly the noise added to
    them, whatever the three predictor columns are. *)
Theorem residuals_of_generated_data (R : rcfType) (n : nat)
    (c1 c2 c3 y_noise : 'cV[R]_n)
    (real_slope_a real_slope_b real_slope_c real_intercept : R) :
  let x_design := x_design_multivariate c1 c2 c3 in
  residuals x_design
    (y_generated_multivariate x_design real_slope_a real_slope_b real_slope_c
       real_intercept y_noise)
    (real_coef real_slope_a real_slope_b real_slope_c real_intercept)
  = y_noise.
Proof.
move=> X; apply/matrixP => i j; rewrite ord1 /residuals mxE [X in _ + X]mxE.
rewrite [(X *m _) i 0]mxE !big_ord_recl big_ord0 addr0.
have i0 : ord0 = inord 0 :> 'I_4 by apply/val_inj; rewrite /= inordK.
have i1 : lift ord0 ord0 = inord 1 :> 'I_4 by apply/val_inj; rewrite /= inordK.
have i2 : lift ord0 (lift ord0 ord0) = inord 2 :> 'I_4.
  by apply/val_inj; rewrite /= inordK.
have i3 : lift ord0 (lift ord0 (lift ord0 ord0)) = inord 3 :> 'I_4.
  by apply/val_inj; rewrite /= inordK.
rewrite i3 i2 i1 i0 [y_generated_multivariate _ _ _ _ _ _ i 0]mxE.
have [-> -> -> ->] := x_design_multivariateE c1 c2 c3 i.
rewrite /real_coef ![(\col_j _) _ 0]mxE !inordK //=.
by ring.
Qed.

(** X13.  In the univariate notebook the predictor carries noise of its own
    while the observations are generated from the noise-free grid: at the
    generating slope and intercept the residuals are the observation noise
    minus the slope times the predictor noise, not the observation noise
    alone. *)
Theorem residuals_of_generated_univariate_data (R : rcfType) (n : nat)
    (grid x_noise y_noise : 'cV[R]_n) (real_slope real_intercept : R) :
  residuals_univariate (x_generated grid x_noise)
    (y_generated real_slope real_intercept grid y_noise)
    real_slope real_intercept
  = y_noise - real_slope *: x_noise.
Proof.
by apply/matrixP => i j; rewrite ord1 !mxE; ring.
Qed.

(** X14.  A weight is built as 1 / |draw|^2 and the orthogonal-distance cell
    turns it back into a standard deviation with 1 / sqrt(weight): the round
    trip gives |draw| for every draw, through an infinite weight when the
    draw is 0; for every other draw the weight is a positive number. *)
Theorem weights_round_trip (R : rcfType) (draw : R) :
  [/\ sigma_of_weight (weight_of_draw draw) = FReal `|draw|,
      weight_of_draw (0 : R) = FPosInf
    & draw != 0 ->
      exists2 w : R, weight_of_draw draw = FReal w & 0 < w].
Proof.
rewrite /sigma_of_weight /weight_of_draw /= normr0 expr0n /= eqxx.
have [->|d_neq0] := eqVneq draw 0.
  by rewrite normr0 expr0n /= eqxx /=; split.
have n_gt0 : 0 < `|draw| by rewrite normr_gt0.
have sq_gt0 : 0 < `|draw| ^+ 2 by rewrite exprn_gt0.
rewrite gt_eqF //=; split=> [||_] //.
- rewrite invr_ge0 (ltW sq_gt0) /= sqrtrV ?(ltW sq_gt0) // sqrtr_sqr normr_id.
  by rewrite invr_eq0 gt_eqF // invrK.
- by exists (`|draw| ^+ 2)^-1; rewrite ?invr_gt0.
Qed.

(** The draw 3. *)
Lemma weights_round_trip_witness :
  (3%:R : algR) != 0
  /\ [/\ sigma_of_weight (weight_of_draw (3%:R : algR)) = FReal `|3%:R|,
         weight_of_draw (0 : algR) = FPosInf
       & exists2 w : algR, weight_of_draw (3%:R : algR) = FReal w & 0 < w].
Proof.
split; first exact: three_neq0.
have [round_trip at_zero positive] := @weights_round_trip algR 3%:R.
by split; [exact: round_trip | exact: at_zero | exact: (positive three_neq0)].
Defined.

(** X15.  The column assignments [x_design[:, j] = c] that build the
    multivariate design matrix: the assigned column reads back, a second
    assignment to the same column overwrites the first, and assignments to
    different columns leave each other's column alone and commute. *)
Theorem column_assignment_laws (R : rcfType) (n p : nat) (M : 'M[R]_(n, p))
    (j k : 'I_p) (c d : 'cV[R]_n) :
  [/\ col j (set_col M j c) = c,
      set_col (set_col M j c) j d = set_col M j d
    & j != k ->
      col k (set_col M j c) = col k M
      /\ set_col (set_col M j c) k d = set_col (set_col M k d) j c].
Proof.
split=> [||neq_jk].
- by apply/matrixP => i l; rewrite ord1 !mxE eqxx.
- by apply/matrixP => i l; rewrite !mxE; case: (l == j).
split; apply/matrixP => i l; rewrite !mxE.
  by rewrite eq_sym (negPf neq_jk).
case: (l =P k) => [->|_] //.
by rewrite eq_sym (negPf neq_jk).
Qed.

(** The two columns of the four-point design matrix. *)
Lemma column_assignment_laws_witness :
  let j : 'I_2 := ord0 in
  let k : 'I_2 := lift ord0 ord0 in
  j != k
  /\ [/\ col j (set_col demo_x_design j demo_y) = demo_y,
         set_col (set_col demo_x_design j demo_y) j demo_x
         = set_col demo_x_design j demo_x,
         col k (set_col demo_x_design j demo_y) = col k demo_x_design
       & set_col (set_col demo_x_design j demo_y) k demo_x
         = set_col (set_col demo_x_design k demo_x) j demo_y].
Proof.
move=> j k; have neq_jk : j != k by [].
split; first exact: neq_jk.
have [read_back overwrite other] :=
  @column_assignment_laws algR 4 2 demo_x_design j k demo_y demo_x.
have [untouched commute] := other neq_jk.
by split; [exact: read_back | exact: overwrite | exact: untouched
          | exact: commute].
Defined.

(** X16.  At an observed row of the design matrix the point estimate plus
    the residual of that row gives back the observation, for any
    coefficients. *)
Theorem estimate_plus_residual (R : rcfType) (n p : nat) (X : 'M[R]_(n, p))
    (y : 'cV[R]_n) (coef : 'cV[R]_p) (k : 'I_n) :
  y_estimated (row k X)^T coef + residuals X y coef k 0 = y k 0.
Proof.
rewrite /y_estimated trmxK -row_mul mxE /residuals.
by rewrite [X in _ + X]mxE [X in _ + (_ + X)]mxE addrCA subrr addr0.
Qed.

(** X17.  On a design matrix whose first column is all ones and whose last
    column is the predictor, the univariate cells, written with slope and
    intercept, compute what the multivariate cells compute with the
    coefficients (intercept, slope): the same residuals and the same point
    estimate. *)
Theorem univariate_cells_agree_with_multivariate (R : rcfType) (n : nat)
    (x_design : 'M[R]_(n, 1 + 1)) (x y : 'cV[R]_n)
    (x_to_predict slope intercept : R) :
  (forall i, x_design i ord0 = 1) -> (forall i, x_design i ord_max = x i 0) ->
  residuals_univariate x y slope intercept
  = residuals x_design y (coef_col intercept slope)
  /\ y_estimated_univariate x_to_predict slope intercept
     = y_estimated (x_to_predict_col_vec x_to_predict)
         (coef_col intercept slope).
Proof.
move=> ones_col x_col; split; last exact: y_estimated_univariateE.
rewrite residuals_univariateE; congr (residuals _ _ _).
apply/matrixP => i j; rewrite -[j]splitK /add_constant.
case: (split j) => k /=; rewrite ord1 ?row_mxEl ?row_mxEr.
  have -> : lshift 1 0 = ord0 :> 'I_(1 + 1) by apply/val_inj.
  by rewrite mxE ones_col.
have -> : rshift 1 0 = ord_max :> 'I_(1 + 1) by apply/val_inj.
by rewrite x_col.
Qed.

(** The four-point instance, at slope 7/5 and intercept -1. *)
Lemma univariate_cells_agree_with_multivariate_witness :
  [/\ forall i, demo_x_design i ord0 = 1,
      forall i, demo_x_design i ord_max = demo_x i 0,
      residuals_univariate demo_x demo_y (7%:R / 5%:R) (-1)
      = residuals demo_x_design demo_y (coef_col (-1) (7%:R / 5%:R))
    & y_estimated_univariate (6%:R : algR) (7%:R / 5%:R) (-1)
      = y_estimated (x_to_predict_col_vec 6%:R)
          (coef_col (-1) (7%:R / 5%:R))].
Proof.
have ones_col i : demo_x_design i ord0 = 1 by apply: add_constant_col0.
have x_col i : demo_x_design i ord_max = demo_x i 0.
  have -> : ord_max = rshift 1 0 :> 'I_(1 + 1) by apply/val_inj.
  by rewrite /demo_x_design /add_constant row_mxEr.
have [res est] :=
  @univariate_cells_agree_with_multivariate algR 4 demo_x_design demo_x
    demo_y 6%:R (7%:R / 5%:R) (-1) ones_col x_col.
by split; [exact: ones_col | exact: x_col | exact: res | exact: est].
Defined.
